(** * NVR surveillance: the bufferless capture, the zone filter and the
      per-camera cycle of the main loop

    A shallow embedding of [src/utils/camera_tools.py],
    [src/utils/cv_utils.py], [src/utils/telegram_bot.py],
    [src/utils/setup_cleanup.py], [src/utils/miscellaneous.py] and the loop
    body of [src/main.py].

    Conventions.
    - Python [int] is [Z].  Module [Binary64] has the anchor and the zone
      test of the loop in IEEE 754 binary64 arithmetic, as the code computes
      them: the product of a zone fraction and a frame size is a rounded
      double there.  The modules of the source files take Python [float] /
      numpy [float64] as an exact rational [Q]; what is stated of them does
      not depend on the rounding, or is stated for the range in which the
      double has the value the statement is about.
    - [datetime] is a number of microseconds since 2000-01-01 00:00:00 and
      [timedelta] a number of microseconds, both [Z] (the resolution of the
      Python types).
    - [config] holds the values the code obtains with [int(...)],
      [float(...)] and [ast.literal_eval(...)] from the INI sections.
    - The reader thread and the main thread are interleaved at the
      granularity of the calls on [queue.Queue] and [cv2.VideoCapture];
      each of those calls is atomic (the queue takes its own mutex). *)

From Stdlib Require Import ZArith QArith Qminmax Lqa List Bool Lia String.
From Stdlib Require Import SpecFloat.
From Stdlib Require Import Qround DecimalString Permutation Ascii.
Import ListNotations.

Local Open Scope Z_scope.

(* ================================================================= *)
(** ** Numbers *)

(** Python's [a < b] on rationals, as a boolean. *)
Definition Qltb (x y : Q) : bool :=
  match (x ?= y)%Q with
  | Lt => true
  | _ => false
  end.

(** Python's two-argument [max(a, b)]: [b] when [b > a], else [a]. *)
Definition py_max (a b : Q) : Q := if Qltb a b then b else a.

(** numpy's [astype(int)]: truncation toward zero. *)
Definition astype_int (x : Q) : Z := Z.quot (Qnum x) (Zpos (Qden x)).

(** [timedelta(seconds=n)] in microseconds. *)
Definition timedelta_seconds (n : Z) : Z := n * 1000000.

(** Python's [int(x)] on a float: truncation toward zero. *)
Definition py_int (x : Q) : Z := Z.quot (Qnum x) (Zpos (Qden x)).

(** Python's [x // y] and [x % y] on floats: the quotient rounded down, and
    what is left of [x]. *)
Definition py_floordiv (x y : Q) : Q := inject_Z (Qfloor (x / y)).
Definition py_mod (x y : Q) : Q := (x - py_floordiv x y * y)%Q.

(** A bound of a slice on a dimension of [n] entries, as [slice.indices]
    makes it for a step of 1: a negative bound counts from the end, and the
    result is brought into [0 .. n]. *)
Definition slice_bound (n i : Z) : Z :=
  if i <? 0 then Z.max 0 (i + n) else Z.min i n.

(** The number of entries of [a[start:stop]] on a dimension of [n]. *)
Definition slice_length (n start stop : Z) : Z :=
  Z.max 0 (slice_bound n stop - slice_bound n start).

(** What [ast.literal_eval] and [eval] make of a parameter string, as far as
    the code tells the cases apart. *)
Inductive literal : Type :=
| LitList (items : list Z)     (* a list of integers *)
| LitBool (b : bool)           (* [True] or [False] *)
| LitOther.                    (* anything else *)

(* ================================================================= *)
(** ** Frames, zones, configuration *)

(** A decoded frame ([np.ndarray]): [shape[0]] rows, [shape[1]] columns and
    the pixel content, which the modelled code never inspects. *)
Record ndarray : Type := mk_ndarray {
  shape0 : Z;
  shape1 : Z;
  pixels : N
}.

(** A zone, [(x1, y1, x2, y2)] as fractions of the frame size. *)
Definition zone : Type := (Q * Q * Q * Q)%type.

(** The parsed configuration values the modelled functions read. *)
Record config : Type := mk_config {
  bot_frame_timeout : Z;             (* [Telegram] bot_frame_timeout, seconds *)
  chat_id : string;                  (* [Telegram] chat_id *)
  min_detections_in_a_row : Z;       (* [Parameters] *)
  runtime_verbose_level : Z;         (* [Parameters] *)
  timeout_count_before_message : Z;  (* [Parameters] *)
  imgsz : Z;                         (* [Model] imgsz *)
  confidence : Q;                    (* [Model] confidence *)
  detection_classes : list Z         (* [Model] detection_classes *)
}.

(* ================================================================= *)
(** ** src/utils/cv_utils.py *)

Module CvUtils.

(** [return (x1 + x2) / 2, max(y1, y2)] *)
Definition midpoint_bottom (x1 y1 x2 y2 : Q) : Q * Q :=
  (((x1 + x2) / 2)%Q, py_max y1 y2).

(** [return (x1 + x2) / 2, (y1 + y2) / 2] *)
Definition midpoint (x1 y1 x2 y2 : Q) : Q * Q :=
  (((x1 + x2) / 2)%Q, ((y1 + y2) / 2)%Q).

(** [x1, y1, x2, y2 = rectangle; x, y = point;
     return x1 < x < x2 and y1 < y < y2] *)
Definition is_point_in_rectangle (point : Q * Q) (rectangle : Q * Q * Q * Q)
  : bool :=
  let '(x1, y1, x2, y2) := rectangle in
  let '(x, y) := point in
  (Qltb x1 x && Qltb x x2) && (Qltb y1 y && Qltb y y2).

(** [zoom_in_frame] on the shape [(rows, columns)] of the frame: the slice
    [frame[top : top + new_height, left : left + new_width]] for a list of
    four [left, right, top, bottom], the frame itself otherwise.  The pixel
    content is not tracked. *)
Definition zoom_in_frame (shape : Z * Z) (zoom_in_params_literal : literal)
  : Z * Z :=
  match zoom_in_params_literal with
  | LitList [lft; rgt; top; bot] =>
      let new_height := fst shape - (top + bot) in
      let new_width := snd shape - (lft + rgt) in
      (slice_length (fst shape) top (top + new_height),
       slice_length (snd shape) lft (lft + new_width))
  | _ => shape
  end.

End CvUtils.

(* ================================================================= *)
(** ** src/utils/camera_tools.py *)

Module CameraTools.

(** Where the reader thread [self.t] stands in [_reader]. *)
Inductive reader_pc : Type :=
| AtCapRead                      (* line 58, before [self.cap.read()] *)
| Decoding                       (* inside [self.cap.read()] *)
| AtQEmpty (frame : ndarray)     (* line 61, before [self.q.empty()] *)
| AtGetNowait (frame : ndarray)  (* line 63, before [self.q.get_nowait()] *)
| AtPut (frame : ndarray)        (* line 66, before [self.q.put(frame)] *)
| AtStopCheck                    (* line 69, before reading [self._stop] *)
| Exited                         (* left the loop by [break] *)
| Crashed.                       (* AttributeError: [_stop] not yet assigned *)

(** The attributes of a [BufferlessVideoCapture] object.  [cap] is
    represented by the number of [release()] calls it has received,
    [q] by the queued items, oldest first, and [_stop] is [None] until
    line 32 of [__init__] has assigned it. *)
Record BufferlessVideoCapture : Type := mk_camera {
  cap_releases : nat;
  q : list ndarray;
  t : reader_pc;
  _stop : option bool;
  name : string;
  zones : list zone;
  last_detection_dt : Z;
  detections_in_a_row : Z;
  queue_timeouts_counter : Z;
  draw_frames : bool
}.

Definition set_cap_releases (n : nat) (c : BufferlessVideoCapture) :=
  mk_camera n (q c) (t c) (_stop c) (name c) (zones c)
    (last_detection_dt c) (detections_in_a_row c)
    (queue_timeouts_counter c) (draw_frames c).

Definition set_q (l : list ndarray) (c : BufferlessVideoCapture) :=
  mk_camera (cap_releases c) l (t c) (_stop c) (name c) (zones c)
    (last_detection_dt c) (detections_in_a_row c)
    (queue_timeouts_counter c) (draw_frames c).

Definition set_t (pc : reader_pc) (c : BufferlessVideoCapture) :=
  mk_camera (cap_releases c) (q c) pc (_stop c) (name c) (zones c)
    (last_detection_dt c) (detections_in_a_row c)
    (queue_timeouts_counter c) (draw_frames c).

Definition set_stop (b : option bool) (c : BufferlessVideoCapture) :=
  mk_camera (cap_releases c) (q c) (t c) b (name c) (zones c)
    (last_detection_dt c) (detections_in_a_row c)
    (queue_timeouts_counter c) (draw_frames c).

Definition set_last_detection_dt (d : Z) (c : BufferlessVideoCapture) :=
  mk_camera (cap_releases c) (q c) (t c) (_stop c) (name c) (zones c)
    d (detections_in_a_row c)
    (queue_timeouts_counter c) (draw_frames c).

Definition set_detections_in_a_row (n : Z) (c : BufferlessVideoCapture) :=
  mk_camera (cap_releases c) (q c) (t c) (_stop c) (name c) (zones c)
    (last_detection_dt c) n
    (queue_timeouts_counter c) (draw_frames c).

Definition set_queue_timeouts_counter (n : Z) (c : BufferlessVideoCapture) :=
  mk_camera (cap_releases c) (q c) (t c) (_stop c) (name c) (zones c)
    (last_detection_dt c) (detections_in_a_row c)
    n (draw_frames c).

(** [datetime(2000, 1, 1, 1, 1, 1)] *)
Definition initial_detection_dt : Z := timedelta_seconds 3661.

(** [__init__] up to and including [self.t.start()] (line 31): the source
    is open, the queue is empty, the thread is about to enter its loop and
    [_stop] does not exist yet.  The attributes of lines 34-39 are private
    to the main thread and already carry their initial values here. *)
Definition init_started (camera_name : string) (zs : list zone)
    (draw : bool) : BufferlessVideoCapture :=
  mk_camera 0 [] AtCapRead None camera_name zs initial_detection_dt 0 0 draw.

(** Line 32, [self._stop = False]. *)
Definition init_stop_flag (c : BufferlessVideoCapture) :=
  set_stop (Some false) c.

(** [__del__]: [self.cap.release()]. *)
Definition del (c : BufferlessVideoCapture) :=
  set_cap_releases (S (cap_releases c)) c.

(** [stop_reader]: [self._stop = True]. *)
Definition stop_reader (c : BufferlessVideoCapture) :=
  set_stop (Some true) c.

(** [read]: [self.q.get(timeout=0.75)] hands out the oldest queued item;
    [queue.Empty] (nothing arrived during the whole window) increments the
    counter and yields [None]. *)
Definition read (c : BufferlessVideoCapture)
  : BufferlessVideoCapture * option ndarray :=
  match q c with
  | frame :: rest => (set_q rest c, Some frame)
  | [] =>
      (set_queue_timeouts_counter (queue_timeouts_counter c + 1) c, None)
  end.

(** What one atomic step of a thread lets an observer see. *)
Inductive obs : Type :=
| Published (frame : ndarray)        (* [self.q.put(frame)] returned *)
| Taken (result : option ndarray)    (* [read()] returned *)
| StopRequested                      (* [stop_reader()] returned *)
| Released.                          (* [self.cap.release()] returned *)

(** One atomic step of [_reader].  [decoded] is what [self.cap.read()]
    delivers when the step is the return of that call: [Some frame] for
    [(True, frame)], [None] for [ret] false.  A released capture delivers
    no frame.  [None] as a result: the thread has terminated. *)
Definition reader_step (decoded : option ndarray)
    (c : BufferlessVideoCapture)
  : option (BufferlessVideoCapture * list obs) :=
  match t c with
  | AtCapRead => Some (set_t Decoding c, [])
  | Decoding =>
      match decoded, cap_releases c with
      | Some frame, O => Some (set_t (AtQEmpty frame) c, [])
      | _, _ => Some (set_t Exited c, [])            (* [if not ret: break] *)
      end
  | AtQEmpty frame =>
      match q c with
      | [] => Some (set_t (AtPut frame) c, [])       (* [q.empty()] is True *)
      | _ :: _ => Some (set_t (AtGetNowait frame) c, [])
      end
  | AtGetNowait frame =>
      (* [get_nowait()] removes the oldest item; on [queue.Empty]: [pass] *)
      Some (set_t (AtPut frame) (set_q (tl (q c)) c), [])
  | AtPut frame =>
      Some (set_t AtStopCheck (set_q (q c ++ [frame]) c), [Published frame])
  | AtStopCheck =>
      match _stop c with
      | None => Some (set_t Crashed c, [])
      | Some true => Some (set_t Exited c, [])       (* [break] *)
      | Some false => Some (set_t AtCapRead c, [])
      end
  | Exited | Crashed => None
  end.

(** The reader thread running on its own: one step per element of [ds],
    the outcomes of its decodes, until it has terminated. *)
Fixpoint reader_steps (ds : list (option ndarray))
    (c : BufferlessVideoCapture) : BufferlessVideoCapture :=
  match ds with
  | [] => c
  | d :: rest =>
      match reader_step d c with
      | Some (c', _) => reader_steps rest c'
      | None => c
      end
  end.

(** The main thread's relation to the object. *)
Inductive lifecycle : Type :=
| InInit         (* between lines 31 and 32 of [__init__] *)
| Constructed    (* [__init__] has returned *)
| Finalized.     (* [__del__] has run; the object is unreachable *)

Inductive action : Type :=
| ReaderStep (decoded : option ndarray)   (* the reader thread moves *)
| InitStop                                (* main: line 32 *)
| Read                                    (* main: [read()] *)
| StopReader                              (* main: [stop_reader()] *)
| Del.                                    (* the collector: [__del__] *)

Definition system : Type := (BufferlessVideoCapture * lifecycle)%type.

(** One step of the whole; [None] when the action is not possible in
    that state. *)
Definition step (a : action) (s : system) : option (system * list obs) :=
  let '(c, life) := s in
  match a, life with
  | ReaderStep decoded, _ =>
      match reader_step decoded c with
      | Some (c', o) => Some ((c', life), o)
      | None => None
      end
  | InitStop, InInit => Some ((init_stop_flag c, Constructed), [])
  | Read, Constructed =>
      let '(c', frame) := read c in Some ((c', Constructed), [Taken frame])
  | StopReader, Constructed =>
      Some ((stop_reader c, Constructed), [StopRequested])
  | Del, Constructed => Some ((del c, Finalized), [Released])
  | _, _ => None
  end.

(** A schedule, run from [s]; the observations in order. *)
Fixpoint run (acts : list action) (s : system)
  : option (system * list obs) :=
  match acts with
  | [] => Some (s, [])
  | a :: rest =>
      match step a s with
      | None => None
      | Some (s', o) =>
          match run rest s' with
          | None => None
          | Some (s'', os) => Some (s'', o ++ os)
          end
      end
  end.

(** The system right after the thread has been started. *)
Definition start (camera_name : string) (zs : list zone) (draw : bool)
  : system :=
  (init_started camera_name zs draw, InInit).

(** The frame of the last [Published] in a trace, if any. *)
Fixpoint last_published (tr : list obs) (acc : option ndarray)
  : option ndarray :=
  match tr with
  | [] => acc
  | Published frame :: rest => last_published rest (Some frame)
  | _ :: rest => last_published rest acc
  end.

(** How many frames a trace publishes. *)
Fixpoint count_published (tr : list obs) : nat :=
  match tr with
  | [] => O
  | Published _ :: rest => S (count_published rest)
  | _ :: rest => count_published rest
  end.

(** How many times a trace releases the source. *)
Fixpoint count_released (tr : list obs) : nat :=
  match tr with
  | [] => O
  | Released :: rest => S (count_released rest)
  | _ :: rest => count_released rest
  end.

End CameraTools.

(* ================================================================= *)
(** ** What the main thread does to the outside world *)

Inductive message : Type :=
| Text (body : string)
| CameraFailed (camera_name : string) (timeout_count : Z).
    (* f'camera {camera_vc.name} has failed {timeout_count} times' *)

Inductive effect : Type :=
| SendMessage (chat : string) (body : message)   (* [bot.sendMessage] *)
| SendPhoto (chat : string)                      (* [bot.sendPhoto] *)
| SaveFrame (camera_name : string)               (* [save_detection_frame] *)
| ShowFrame (camera_name : string).              (* [show_frame] *)

(* ================================================================= *)
(** ** src/utils/telegram_bot.py *)

Module TelegramBot.
Import CameraTools.

(** [time_diff > timedelta(seconds=int(bot_frame_timeout))
     and camera_vc.detections_in_a_row >= int(min_detections_in_a_row)] *)
Definition send_frame_condition (time_diff : Z)
    (camera_vc : BufferlessVideoCapture) (cfg : config) : bool :=
  if (timedelta_seconds (bot_frame_timeout cfg) <? time_diff)
     && (min_detections_in_a_row cfg <=? detections_in_a_row camera_vc)
  then true
  else false.

(** [send_cv2_frame]: the photo goes out when the verbosity admits
    [verbose_level] and [cv2.imencode] succeeded. *)
Definition send_cv2_frame (encoded : bool) (verbose_level : Z)
    (cfg : config) : list effect :=
  if verbose_level <=? runtime_verbose_level cfg then
    if encoded then [SendPhoto (chat_id cfg)] else []
  else [].

Definition inform_the_user (information_text : string) (verbose_level : Z)
    (cfg : config) : list effect :=
  if verbose_level <=? runtime_verbose_level cfg
  then [SendMessage (chat_id cfg) (Text information_text)]
  else [].

(** [timeout_count = int(timeout_count_before_message)];
    [if camera_vc.queue_timeouts_counter == timeout_count
        and int(runtime_verbose_level) >= verbose_level: bot.sendMessage(...)] *)
Definition check_and_report_camera_failure
    (camera_vc : BufferlessVideoCapture) (verbose_level : Z) (cfg : config)
  : list effect :=
  let timeout_count := timeout_count_before_message cfg in
  if (queue_timeouts_counter camera_vc =? timeout_count)
     && (verbose_level <=? runtime_verbose_level cfg)
  then [SendMessage (chat_id cfg) (CameraFailed (name camera_vc) timeout_count)]
  else [].

End TelegramBot.

(* ================================================================= *)
(** ** src/utils/setup_cleanup.py *)

(** The exceptions the modelled code can raise. *)
Inductive exn : Type :=
| AttributeError      (* ['NoneType' object has no attribute 'shape'] *)
| ZeroDivisionError.

Module SetupCleanup.
Import CameraTools.

(** [frame = camera_vc.read(); width = int(imgsz);
     height = int(frame.shape[0] * int(imgsz) / frame.shape[1]);
     return width, height].
    [int(a / b)] truncates the double [a / b] toward zero; for
    [0 <= a < 2^53] and [0 < b] that double has the whole part of the exact
    quotient, which is what this definition computes, and the statement
    about the height is made within that range. *)
Definition calculate_frame_size (camera_vc : BufferlessVideoCapture)
    (cfg : config) : BufferlessVideoCapture * (exn + Z * Z) :=
  let '(camera_vc, frame) := read camera_vc in
  let width := imgsz cfg in
  match frame with
  | None => (camera_vc, inl AttributeError)
  | Some frame =>
      if shape1 frame =? 0 then (camera_vc, inl ZeroDivisionError)
      else
        let height := Z.quot (shape0 frame * imgsz cfg) (shape1 frame) in
        (camera_vc, inr (width, height))
  end.

(** [cleanup_cameras]: [stop_reader()] on every camera (then a sleep of
    one second and [cv2.destroyAllWindows()]). *)
Definition cleanup_cameras (cameras_list : list BufferlessVideoCapture)
  : list BufferlessVideoCapture :=
  map stop_reader cameras_list.

(** What [eval(config[camera_config]['show_camera_window'])] does: it
    returns a value, or it raises an exception of its own, here by the name
    of its class ([NameError] for the text [yes], [SyntaxError] for an empty
    one). *)
Inductive eval_outcome : Type :=
| Evaluates (value : literal)
| EvalRaises (exception : string).

(** A section of the configuration file as [setup_cameras] reads it: its
    name, the value of [zones] and what [eval] makes of
    [show_camera_window].  The keys the loop looks up are taken to exist and
    [zones] to be a literal list of rectangles. *)
Record config_section : Type := mk_section {
  section_name : string;
  section_zones : list zone;
  section_show_camera_window : eval_outcome
}.

(** How [setup_cameras] can fail at the lines 76-78. *)
Inductive setup_error : Type :=
| ValueError                             (* line 78, not a [bool] *)
| EvalException (exception : string).    (* line 76, raised inside [eval] *)

(** [x[:7] == 'Camera_'] *)
Definition is_camera_section (x : string) : bool :=
  String.eqb (substring 0 7 x) "Camera_".

(** What the reader thread of a new session gets to do while the main
    thread is still inside [setup_cameras]: the outcomes of its steps
    between the lines 31 and 32 of [__init__], and of those after line 32
    until [setup_cameras] returns. *)
Record reader_moves : Type := mk_moves {
  before_stop_flag : list (option ndarray);
  after_stop_flag : list (option ndarray)
}.

(** [BufferlessVideoCapture(camera_config, base_address, zones, draw_frames)]:
    the thread is started, line 32 assigns [_stop], and the thread runs
    along. *)
Definition new_camera (camera_name : string) (zs : list zone) (draw : bool)
    (moves : reader_moves) : BufferlessVideoCapture :=
  reader_steps (after_stop_flag moves)
    (init_stop_flag
       (reader_steps (before_stop_flag moves)
          (init_started camera_name zs draw))).

(** The loop of [setup_cameras] over the selected sections, [camera_vc_list]
    being [acc]; [readers] gives the moves of the reader thread of each
    section's session.  An exception leaves the loop and the function at the
    first section that raises one. *)
Fixpoint setup_cameras_loop (sections : list config_section)
    (readers : string -> reader_moves)
    (acc : list BufferlessVideoCapture)
  : setup_error + list BufferlessVideoCapture :=
  match sections with
  | [] => inr acc
  | sec :: rest =>
      match section_show_camera_window sec with
      | EvalRaises exception => inl (EvalException exception)
      | Evaluates (LitBool draw_frames) =>
          setup_cameras_loop rest readers
            (acc ++ [new_camera (section_name sec) (section_zones sec)
                       draw_frames (readers (section_name sec))])
      | Evaluates _ => inl ValueError
      end
  end.

(** [setup_cameras]: the sections whose name starts with [Camera_], one
    session each. *)
Definition setup_cameras (sections : list config_section)
    (readers : string -> reader_moves)
  : setup_error + list BufferlessVideoCapture :=
  setup_cameras_loop
    (filter (fun sec => is_camera_section (section_name sec)) sections)
    readers [].

End SetupCleanup.

(* ================================================================= *)
(** ** src/utils/miscellaneous.py *)

Module Miscellaneous.

(** [timedelta.total_seconds()].  The double that Python computes is the
    one nearest to this rational; for differences of less than [2^53]
    microseconds it has the same whole part, which is all that
    [calculate_time_to_end] uses of it, and beyond that it can be the next
    whole number.  The statements about these fields are made within that
    range. *)
Definition total_seconds (td : Z) : Q := td # 1000000.

(** The three numbers [calculate_time_to_end] formats:
    [int(total_seconds // 3600)], [int((total_seconds % 3600) // 60)] and
    [int(total_seconds % 60)]. *)
Definition time_to_end_fields (dt1 dt2 : Z) : Z * Z * Z :=
  let time_difference := dt2 - dt1 in
  let total := total_seconds time_difference in
  let hours := py_int (py_floordiv total 3600) in
  let minutes := py_int (py_floordiv (py_mod total 3600) 60) in
  let seconds := py_int (py_mod total 60) in
  (hours, minutes, seconds).

(** The format [{n:02d}]: the decimal digits, a minus sign before them for a
    negative number, and a zero in front when that makes a single
    character. *)
Definition format_02d (n : Z) : string :=
  let digits := NilZero.string_of_int (Z.to_int n) in
  if (String.length digits <? 2)%nat then ("0" ++ digits)%string else digits.

(** [f'{hours:02d}:{minutes:02d}:{seconds:02d}'] *)
Definition calculate_time_to_end (dt1 dt2 : Z) : string :=
  let '(hours, minutes, seconds) := time_to_end_fields dt1 dt2 in
  (format_02d hours ++ ":" ++ format_02d minutes ++ ":"
   ++ format_02d seconds)%string.

(** [timedelta(hours=hours, minutes=minutes)] in microseconds. *)
Definition timedelta_hours_minutes (hours minutes : Z) : Z :=
  timedelta_seconds (hours * 3600 + minutes * 60).

(** [timedelta(minutes=n)] in microseconds. *)
Definition timedelta_minutes (n : Z) : Z := timedelta_seconds (n * 60).

(** A [LoopDelayer]; times are readings of [time.perf_counter()], in
    seconds. *)
Record LoopDelayer : Type := mk_delayer {
  minimal_loop_time : Q;
  previous_delay_time : Q
}.

(** [delay]: [now] is the reading of line 71 and [after] the reading of
    line 76, taken when the sleep is over.  The second component is the
    duration handed to [time.sleep], if it is called. *)
Definition delay (now after : Q) (d : LoopDelayer) : LoopDelayer * option Q :=
  let time_difference := (now - previous_delay_time d)%Q in
  let loop_delay_time := (minimal_loop_time d - time_difference)%Q in
  if Qltb 0 loop_delay_time
  then (mk_delayer (minimal_loop_time d) after, Some loop_delay_time)
  else (d, None).

(** Successive calls of [delay], one pair of readings each; the sleeps in
    order. *)
Fixpoint delays (calls : list (Q * Q)) (d : LoopDelayer)
  : LoopDelayer * list (option Q) :=
  match calls with
  | [] => (d, [])
  | (now, after) :: rest =>
      let '(d1, slept) := delay now after d in
      let '(d2, sleeps) := delays rest d1 in
      (d2, slept :: sleeps)
  end.

(** An [AliveLogger]: [last_log_time] a [datetime], [time_interval] in
    minutes. *)
Record AliveLogger : Type := mk_alive_logger {
  last_log_time : Z;
  time_interval : Z
}.

(** [log_alive_status]: [now] is the [datetime.now()] of the test and
    [now_logged] the one stored.  The second component tells whether the
    line was logged. *)
Definition log_alive_status (now now_logged : Z) (a : AliveLogger)
  : AliveLogger * bool :=
  if timedelta_minutes (time_interval a) <? now - last_log_time a
  then (mk_alive_logger now_logged (time_interval a), true)
  else (a, false).

(** Successive calls of [log_alive_status]; the times stored by the calls
    that logged, in order. *)
Fixpoint log_times (calls : list (Z * Z)) (a : AliveLogger) : list Z :=
  match calls with
  | [] => []
  | (now, now_logged) :: rest =>
      let '(a1, logged) := log_alive_status now now_logged a in
      if logged then now_logged :: log_times rest a1 else log_times rest a1
  end.

End Miscellaneous.

(* ================================================================= *)
(** ** src/main.py: the body of the loop for one camera *)

Module Main.
Import CameraTools CvUtils TelegramBot.

(** One detection of the model: class, confidence and the corner
    coordinates [box.xyxy[0]]. *)
Record Box : Type := mk_box {
  cls : Z;
  conf : Q;
  xyxy : Q * Q * Q * Q
}.

(** [coordinates = box.xyxy[0].astype(int)] *)
Definition coordinates (box : Box) : Z * Z * Z * Z :=
  let '(a, b, c, d) := xyxy box in
  (astype_int a, astype_int b, astype_int c, astype_int d).

(** [midpoint_bottom] applied to the four unpacked [coordinates]. *)
Definition anchor (coords : Z * Z * Z * Z) : Q * Q :=
  let '(a, b, c, d) := coords in
  midpoint_bottom (inject_Z a) (inject_Z b) (inject_Z c) (inject_Z d).

(** [(x1 * frame_width, y1 * frame_height, x2 * frame_width, y2 * frame_height)] *)
Definition rectangle_coordinates (z : zone) (frame_width frame_height : Z)
  : Q * Q * Q * Q :=
  let '(x1, y1, x2, y2) := z in
  ((x1 * inject_Z frame_width)%Q, (y1 * inject_Z frame_height)%Q,
   (x2 * inject_Z frame_width)%Q, (y2 * inject_Z frame_height)%Q).

(** Lines 76-81: [object_not_in_zones = True], then the loop over
    [camera_vc.zones] that sets it to [False] and breaks at the first zone
    containing the anchor. *)
Fixpoint object_not_in_zones (zs : list zone) (frame_width frame_height : Z)
    (coords : Z * Z * Z * Z) : bool :=
  match zs with
  | [] => true
  | z :: rest =>
      if is_point_in_rectangle (anchor coords)
           (rectangle_coordinates z frame_width frame_height)
      then false
      else object_not_in_zones rest frame_width frame_height coords
  end.

(** Lines 69-70: [box.cls in detection_classes and box.conf > confidence]. *)
Definition box_selected (cfg : config) (box : Box) : bool :=
  existsb (Z.eqb (cls box)) (detection_classes cfg)
  && Qltb (confidence cfg) (conf box).

(** Lines 67-84 for the boxes of one result: [any_detection] becomes
    [True] at each selected box outside every zone. *)
Definition scan_boxes (cfg : config) (zs : list zone)
    (frame_width frame_height : Z) (boxes : list Box) (any_detection : bool)
  : bool :=
  fold_left
    (fun any box =>
       if box_selected cfg box then
         if object_not_in_zones zs frame_width frame_height (coordinates box)
         then true
         else any
       else any)
    boxes any_detection.

(** Lines 64-84: [any_detection = False], then the loop over [results]. *)
Definition scan_results (cfg : config) (zs : list zone)
    (frame_width frame_height : Z) (results : list (list Box)) : bool :=
  fold_left
    (fun any boxes => scan_boxes cfg zs frame_width frame_height boxes any)
    results false.

(** What one pass of the loop body receives from outside: the boxes the
    model predicts for the frame, result by result, the two readings of
    [datetime.now()] (lines 88 and 97), whether [cv2.imencode] succeeds and
    the flags [save_frames] and [show_camera_window]. *)
Record cycle_input : Type := mk_cycle_input {
  results : list (list Box);
  now_measured : Z;
  now_committed : Z;
  encoded : bool;
  save_frames : bool;
  show_camera_window : bool
}.

Definition save_detection_frame (camera_name : string) (save : bool)
  : list effect :=
  if save then [SaveFrame camera_name] else [].

Definition show_frame (show : bool) (camera_name : string) : list effect :=
  if show then [ShowFrame camera_name] else [].

(** Lines 49-104, the body of [for camera_vc in camera_vc_list].  The
    pixel operations (zoom, resize, overlays, boxes) do not influence the
    session's attributes or the messages and are left out. *)
Definition camera_cycle (cfg : config) (frame_width frame_height : Z)
    (inp : cycle_input) (camera_vc : BufferlessVideoCapture)
  : BufferlessVideoCapture * list effect :=
  let '(camera_vc, frame) := read camera_vc in
  match frame with
  | None =>
      (camera_vc, check_and_report_camera_failure camera_vc 2 cfg)
  | Some _ =>
      let any_detection :=
        scan_results cfg (zones camera_vc) frame_width frame_height
          (results inp) in
      if any_detection then
        let time_diff := now_measured inp - last_detection_dt camera_vc in
        let camera_vc :=
          set_detections_in_a_row (detections_in_a_row camera_vc + 1)
            camera_vc in
        if send_frame_condition time_diff camera_vc cfg then
          (set_last_detection_dt (now_committed inp) camera_vc,
           save_detection_frame (name camera_vc) (save_frames inp)
           ++ send_cv2_frame (encoded inp) 1 cfg
           ++ show_frame (show_camera_window inp) (name camera_vc))
        else
          (camera_vc, show_frame (show_camera_window inp) (name camera_vc))
      else
        (set_detections_in_a_row 0 camera_vc,
         show_frame (show_camera_window inp) (name camera_vc))
  end.

(** Successive passes of the loop body for one camera, one input per
    pass; the effects in order. *)
Fixpoint camera_cycles (cfg : config) (frame_width frame_height : Z)
    (inps : list cycle_input) (camera_vc : BufferlessVideoCapture)
  : BufferlessVideoCapture * list effect :=
  match inps with
  | [] => (camera_vc, [])
  | inp :: rest =>
      let '(camera_vc, e1) :=
        camera_cycle cfg frame_width frame_height inp camera_vc in
      let '(camera_vc, e2) :=
        camera_cycles cfg frame_width frame_height rest camera_vc in
      (camera_vc, e1 ++ e2)
  end.

(** The failure reports among some effects. *)
Definition is_failure_report (e : effect) : bool :=
  match e with
  | SendMessage _ (CameraFailed _ _) => true
  | _ => false
  end.

Definition failure_reports (es : list effect) : nat :=
  List.length (filter is_failure_report es).

End Main.

(* ================================================================= *)
(** ** The zone test in binary64 *)

(** The same functions of [cv_utils.py] and lines 78-79 of [main.py] on
    IEEE 754 double precision numbers ([prec = 53], [emax = 1024]), rounding
    to nearest even as Python and numpy do. *)
Module Binary64.

Definition float64 : Type := spec_float.

(** The conversion of an integer ([int], [np.int64]) to a double. *)
Definition of_int (n : Z) : float64 := binary_normalize 53 1024 n 0 false.

(** The double nearest to the decimal literals [0.1] and [0.9]. *)
Definition lit_0_1 : float64 := S754_finite false 0x1999999999999a (-56).
Definition lit_0_9 : float64 := S754_finite false 0x1ccccccccccccd (-53).

(** The doubles nearest to the decimal literals [0.29] and [0.7]. *)
Definition lit_0_29 : float64 := S754_finite false 0x128f5c28f5c28f (-54).
Definition lit_0_7 : float64 := S754_finite false 0x16666666666666 (-53).

(** The sum of two [np.int64]: it wraps around at [2^63]. *)
Definition int64_add (a b : Z) : Z := (a + b + 2 ^ 63) mod 2 ^ 64 - 2 ^ 63.

(** [return (x1 + x2) / 2, max(y1, y2)] on [np.int64] arguments, as
    [main.py] calls it on [box.xyxy[0].astype(int)]: the sum and the maximum
    are [np.int64], the division is the true division of the sum, converted
    to a double, by 2.0. *)
Definition midpoint_bottom (x1 y1 x2 y2 : Z) : float64 * float64 :=
  (SFdiv 53 1024 (of_int (int64_add x1 x2)) (of_int 2),
   of_int (if y1 <? y2 then y2 else y1)).

(** [return x1 < x < x2 and y1 < y < y2] *)
Definition is_point_in_rectangle (point : float64 * float64)
    (rectangle : float64 * float64 * float64 * float64) : bool :=
  let '(x1, y1, x2, y2) := rectangle in
  let '(x, y) := point in
  (SFltb x1 x && SFltb x x2) && (SFltb y1 y && SFltb y y2).

(** [(x1 * frame_width, y1 * frame_height, x2 * frame_width, y2 * frame_height)] *)
Definition rectangle_coordinates
    (z : float64 * float64 * float64 * float64)
    (frame_width frame_height : Z)
  : float64 * float64 * float64 * float64 :=
  let '(x1, y1, x2, y2) := z in
  (SFmul 53 1024 x1 (of_int frame_width),
   SFmul 53 1024 y1 (of_int frame_height),
   SFmul 53 1024 x2 (of_int frame_width),
   SFmul 53 1024 y2 (of_int frame_height)).

(** The zone [(0.1, 0.1, 0.9, 0.9)]. *)
Definition zone_01_09 : float64 * float64 * float64 * float64 :=
  (lit_0_1, lit_0_1, lit_0_9, lit_0_9).

(** Lines 76-81 of [main.py] on doubles: [object_not_in_zones = True], then
    the loop over [camera_vc.zones], whose entries are Python floats, that
    sets it to [False] and breaks at the first zone whose scaled rectangle
    contains the anchor of the [np.int64] coordinates. *)
Fixpoint object_not_in_zones
    (zs : list (float64 * float64 * float64 * float64))
    (frame_width frame_height : Z) (coords : Z * Z * Z * Z) : bool :=
  match zs with
  | [] => true
  | z :: rest =>
      let '(c1, c2, c3, c4) := coords in
      if is_point_in_rectangle (midpoint_bottom c1 c2 c3 c4)
           (rectangle_coordinates z frame_width frame_height)
      then false
      else object_not_in_zones rest frame_width frame_height coords
  end.

(** [int(x)] of a finite double: the truncation toward zero. *)
Definition to_int (x : float64) : Z :=
  match x with
  | S754_finite s m e =>
      cond_Zopp s
        (if 0 <=? e then Zpos m * 2 ^ e else Z.quot (Zpos m) (2 ^ (- e)))
  | _ => 0
  end.

(** [int(frame.shape[0] * int(imgsz) / frame.shape[1])], line 115 of
    [setup_cleanup.py], for a product and a width below [2^53], which are
    doubles themselves: the quotient is the double nearest to the exact
    one. *)
Definition frame_height (rows imgsz columns : Z) : Z :=
  to_int (SFdiv 53 1024 (of_int (rows * imgsz)) (of_int columns)).

End Binary64.

(* ================================================================= *)
(** ** The statements' vocabulary *)

(** The rectangle test, read as a proposition. *)
Definition strictly_inside (point : Q * Q) (rectangle : Q * Q * Q * Q) : Prop :=
  let '(lft, top, rgt, bot) := rectangle in
  let '(x, y) := point in
  ((lft < x)%Q /\ (x < rgt)%Q) /\ ((top < y)%Q /\ (y < bot)%Q).

(** A box counts as a detection when it is selected and outside every
    zone. *)
Definition counts (cfg : config) (zs : list zone) (fw fh : Z) (box : Main.Box)
  : bool :=
  Main.box_selected cfg box
  && Main.object_not_in_zones zs fw fh (Main.coordinates box).

(** The double [f] is finite and stands for the number [num / den]. *)
Definition has_value (f : Binary64.float64) (num : Z) (den : positive)
  : bool :=
  match f with
  | S754_zero _ => num =? 0
  | S754_finite s m e =>
      match e with
      | Zneg p => cond_Zopp s (Zpos m) * Zpos den =? num * 2 ^ Zpos p
      | _ => cond_Zopp s (Zpos m) * 2 ^ e * Zpos den =? num
      end
  | _ => false
  end.

(** [P] holds of every integer from 0 to [n - 1]. *)
Fixpoint all_below (n : nat) (P : Z -> bool) : bool :=
  match n with
  | O => true
  | S k => P (Z.of_nat k) && all_below k P
  end.

(** Two points with equal coordinates. *)
Definition same_point (p p' : Q * Q) : Prop :=
  (fst p == fst p')%Q /\ (snd p == snd p')%Q.

(** The zone [(0.1, 0.1, 0.9, 0.9)]. *)
Definition zone_01_09 : zone := (1 # 10, 1 # 10, 9 # 10, 9 # 10)%Q.

(** A frame of 480 rows and 640 columns. *)
Definition frame_640_480 (content : N) : ndarray := mk_ndarray 480 640 content.

(** A session named Camera_1 without zones, with the given pending frames,
    streak and timeout count; the reader is at the top of its loop. *)
Definition session (pending : list ndarray) (streak timeouts : Z)
  : CameraTools.BufferlessVideoCapture :=
  CameraTools.mk_camera 0 pending CameraTools.AtCapRead (Some false)
    "Camera_1" [] CameraTools.initial_detection_dt streak timeouts false.

(** A configuration: notifications at least 60 s apart after 3 detections
    in a row, a failure report at the 5th timeout, model size 640, classes
    0 and 2 above confidence 1/2, and the given verbosity. *)
Definition sample_config (verbose : Z) : config :=
  mk_config 60 "chat" 3 verbose 5 640 (1 # 2)%Q [0; 2].

(** The input of a pass in which the model predicts the given boxes. *)
Definition pass_with (boxes : list Main.Box) : Main.cycle_input :=
  Main.mk_cycle_input [boxes] 0 0 true false false.

(** The state of the single slot, given the frame [last] published last:
    nothing is pending, or exactly that frame is; and when the reader is
    about to put, nothing is pending. *)
Definition channel_inv (s : CameraTools.system) (last : option ndarray)
  : Prop :=
  (CameraTools.q (fst s) = []
   \/ exists frame, CameraTools.q (fst s) = [frame] /\ last = Some frame)
  /\ (forall frame,
         CameraTools.t (fst s) = CameraTools.AtPut frame ->
         CameraTools.q (fst s) = []).

(** How many frames the reader can still publish before it next looks at
    [_stop]. *)
Definition pending_publishes (pc : CameraTools.reader_pc) : nat :=
  match pc with
  | CameraTools.AtStopCheck | CameraTools.Exited | CameraTools.Crashed => 0
  | _ => 1
  end.

(** The source is released once the object is finalized and not before. *)
Definition release_inv (s : CameraTools.system) : Prop :=
  match snd s with
  | CameraTools.Finalized => CameraTools.cap_releases (fst s) = 1%nat
  | _ => CameraTools.cap_releases (fst s) = 0%nat
  end.

(** A stop request that arrives while the reader decodes: the constructor
    finishes, the reader enters [cap.read()], [stop_reader()] is called, the
    decode delivers a frame, the reader finds the queue empty, puts the
    frame, reads [_stop] and leaves. *)
Definition stop_mid_decode : list CameraTools.action :=
  [CameraTools.InitStop;
   CameraTools.ReaderStep None;
   CameraTools.StopReader;
   CameraTools.ReaderStep (Some (frame_640_480 1));
   CameraTools.ReaderStep None;
   CameraTools.ReaderStep None;
   CameraTools.ReaderStep None].

(** The reader publishes a first frame and, before the main thread has
    read it, a second one: the constructor finishes; [cap.read()], the queue
    is empty, [put], [_stop] is false; [cap.read()], the queue is not empty,
    [get_nowait], [put]. *)
Definition two_publishes : list CameraTools.action :=
  [CameraTools.InitStop;
   CameraTools.ReaderStep None;
   CameraTools.ReaderStep (Some (frame_640_480 1));
   CameraTools.ReaderStep None;
   CameraTools.ReaderStep None;
   CameraTools.ReaderStep None;
   CameraTools.ReaderStep None;
   CameraTools.ReaderStep (Some (frame_640_480 2));
   CameraTools.ReaderStep None;
   CameraTools.ReaderStep None;
   CameraTools.ReaderStep None].

(** The session those steps lead to: the second frame pending, the reader
    before its test of [_stop]. *)
Definition after_two_publishes : CameraTools.system :=
  (CameraTools.mk_camera 0 [frame_640_480 2] CameraTools.AtStopCheck
     (Some false) "Camera_1" [] CameraTools.initial_detection_dt 0 0 false,
   CameraTools.Constructed).

(** Three calls of [read] that time out, a frame published by the reader,
    and a fourth [read]. *)
Definition three_timeouts_then_frame : list CameraTools.action :=
  [CameraTools.InitStop;
   CameraTools.Read;
   CameraTools.Read;
   CameraTools.Read;
   CameraTools.ReaderStep None;
   CameraTools.ReaderStep (Some (frame_640_480 7));
   CameraTools.ReaderStep None;
   CameraTools.ReaderStep None;
   CameraTools.Read].

(** Passes of the loop body for one camera with its reader thread running
    in between: before each pass the reader takes the steps [ds], the
    outcomes of its decodes. *)
Fixpoint camera_cycles_with_reader (cfg : config)
    (frame_width frame_height : Z)
    (sched : list (list (option ndarray) * Main.cycle_input))
    (camera_vc : CameraTools.BufferlessVideoCapture)
  : CameraTools.BufferlessVideoCapture * list effect :=
  match sched with
  | [] => (camera_vc, [])
  | (ds, inp) :: rest =>
      let '(camera_vc, e1) :=
        Main.camera_cycle cfg frame_width frame_height inp
          (CameraTools.reader_steps ds camera_vc) in
      let '(camera_vc, e2) :=
        camera_cycles_with_reader cfg frame_width frame_height rest
          camera_vc in
      (camera_vc, e1 ++ e2)
  end.

(** The frames a trace publishes and the frames its reads return, in
    order. *)
Fixpoint published_frames (tr : list CameraTools.obs) : list ndarray :=
  match tr with
  | [] => []
  | CameraTools.Published frame :: rest => frame :: published_frames rest
  | _ :: rest => published_frames rest
  end.

Fixpoint taken_frames (tr : list CameraTools.obs) : list ndarray :=
  match tr with
  | [] => []
  | CameraTools.Taken (Some frame) :: rest => frame :: taken_frames rest
  | _ :: rest => taken_frames rest
  end.

(** The reads of a trace that timed out. *)
Fixpoint count_timeouts (tr : list CameraTools.obs) : nat :=
  match tr with
  | [] => O
  | CameraTools.Taken None :: rest => S (count_timeouts rest)
  | _ :: rest => count_timeouts rest
  end.

(** [l1] is [l2] with some entries left out. *)
Inductive subsequence {A : Type} : list A -> list A -> Prop :=
| subsequence_nil : subsequence [] []
| subsequence_skip (x : A) (l1 l2 : list A) :
    subsequence l1 l2 -> subsequence l1 (x :: l2)
| subsequence_keep (x : A) (l1 l2 : list A) :
    subsequence l1 l2 -> subsequence (x :: l1) (x :: l2).

(** Each entry of [l] exceeds the one before it by more than [gap], the
    first one exceeding [from]. *)
Fixpoint spaced (gap from : Z) (l : list Z) : Prop :=
  match l with
  | [] => True
  | x :: rest => from + gap < x /\ spaced gap x rest
  end.

(** The photos among some effects. *)
Definition photos (es : list effect) : nat :=
  List.length
    (filter (fun e => match e with SendPhoto _ => true | _ => false end) es).

(** A configuration with another verbosity. *)
Definition with_verbose_level (verbose : Z) (cfg : config) : config :=
  mk_config (bot_frame_timeout cfg) (chat_id cfg)
    (min_detections_in_a_row cfg) verbose
    (timeout_count_before_message cfg) (imgsz cfg) (confidence cfg)
    (detection_classes cfg).

(** The exception that a value of [show_camera_window] makes
    [setup_cameras] raise, if any. *)
Definition first_failure (outcome : SetupCleanup.eval_outcome)
  : option SetupCleanup.setup_error :=
  match outcome with
  | SetupCleanup.Evaluates (LitBool _) => None
  | SetupCleanup.Evaluates _ => Some SetupCleanup.ValueError
  | SetupCleanup.EvalRaises exception =>
      Some (SetupCleanup.EvalException exception)
  end.

(** The reader reaches its first test of [_stop] before line 32 of
    [__init__] has run. *)
Definition reader_wins_the_start : list CameraTools.action :=
  [CameraTools.ReaderStep None;
   CameraTools.ReaderStep (Some (frame_640_480 1));
   CameraTools.ReaderStep None;
   CameraTools.ReaderStep None;
   CameraTools.ReaderStep None].

(** What has been taken, [T], against what has been published, [P]: the
    frame pending is the last one published and has not been taken. *)
Definition order_inv (s : CameraTools.system) (P T : list ndarray) : Prop :=
  match CameraTools.q (fst s) with
  | [] => subsequence T P
  | [frame] => exists P', P = P' ++ [frame] /\ subsequence T P'
  | _ => False
  end
  /\ (forall frame,
         CameraTools.t (fst s) = CameraTools.AtPut frame ->
         CameraTools.q (fst s) = []).

(** The session [three_timeouts_then_frame] leads to: nothing pending, three
    timeouts counted, the reader before its test of [_stop]. *)
Definition after_three_timeouts_then_frame : CameraTools.system :=
  (CameraTools.mk_camera 0 [] CameraTools.AtStopCheck (Some false)
     "Camera_1" [] CameraTools.initial_detection_dt 0 3 false,
   CameraTools.Constructed).

(* ================================================================= *)
(** * Properties *)

Import CameraTools CvUtils TelegramBot SetupCleanup Main.

(** ** Comparison of rationals *)

Lemma Qltb_lt (x y : Q) : Qltb x y = true <-> (x < y)%Q.
Proof.
  unfold Qltb. rewrite Qlt_alt.
  destruct (x ?= y)%Q; split; intro H; try reflexivity; discriminate H.
Qed.

Lemma Qltb_ge (x y : Q) : Qltb x y = false <-> (y <= x)%Q.
Proof.
  destruct (Qlt_le_dec x y) as [Hlt | Hle].
  - pose proof (proj2 (Qltb_lt x y) Hlt) as Ht. rewrite Ht. split.
    + discriminate.
    + intro Hle. exfalso. exact (Qlt_not_le _ _ Hlt Hle).
  - split; [intros _; exact Hle | intros _].
    destruct (Qltb x y) eqn:E; [| reflexivity].
    apply Qltb_lt in E. exfalso. exact (Qlt_not_le _ _ E Hle).
Qed.

Lemma Qltb_irrefl (x : Q) : Qltb x x = false.
Proof. apply Qltb_ge. apply Qle_refl. Qed.

Lemma Qltb_compat (x x' y y' : Q) :
  (x == x')%Q -> (y == y')%Q -> Qltb x y = Qltb x' y'.
Proof.
  intros Hx Hy. unfold Qltb. now rewrite (Qcompare_comp x x' Hx y y' Hy).
Qed.

Lemma is_point_in_rectangle_spec (point : Q * Q) (rectangle : Q * Q * Q * Q) :
  is_point_in_rectangle point rectangle = true <->
  strictly_inside point rectangle.
Proof.
  destruct rectangle as [[[lft top] rgt] bot], point as [x y].
  unfold is_point_in_rectangle, strictly_inside.
  rewrite !andb_true_iff, !Qltb_lt. reflexivity.
Qed.

Lemma is_point_in_rectangle_compat (x y x' y' : Q) (r : Q * Q * Q * Q) :
  (x == x')%Q -> (y == y')%Q ->
  is_point_in_rectangle (x, y) r = is_point_in_rectangle (x', y') r.
Proof.
  intros Hx Hy. destruct r as [[[lft top] rgt] bot].
  unfold is_point_in_rectangle.
  rewrite (Qltb_compat lft lft x x'), (Qltb_compat x x' rgt rgt),
          (Qltb_compat top top y y'), (Qltb_compat y y' bot bot);
    auto using Qeq_refl.
Qed.

(* ----------------------------------------------------------------- *)
(** ** Zone containment *)

(** C7.  A point is inside a rectangle exactly when [lft < x < rgt] and
    [top < y < bot], all four comparisons strict.  Hence a point on one of
    the four boundary lines is outside, the corner [(lft, top)] among them,
    while [(lft + eps, top + eps)] is inside for every positive [eps] smaller
    than the rectangle's width and height; such an [eps] exists for every
    rectangle with [lft < rgt] and [top < bot]. *)
Theorem is_point_in_rectangle_open_interval (lft top rgt bot : Q) :
  (forall x y : Q,
      is_point_in_rectangle (x, y) (lft, top, rgt, bot) = true <->
      ((lft < x)%Q /\ (x < rgt)%Q) /\ ((top < y)%Q /\ (y < bot)%Q))
  /\ (forall x y : Q,
         (x == lft)%Q \/ (x == rgt)%Q \/ (y == top)%Q \/ (y == bot)%Q ->
         is_point_in_rectangle (x, y) (lft, top, rgt, bot) = false)
  /\ is_point_in_rectangle (lft, top) (lft, top, rgt, bot) = false
  /\ (forall eps : Q,
         (0 < eps)%Q -> (eps < rgt - lft)%Q -> (eps < bot - top)%Q ->
         is_point_in_rectangle ((lft + eps)%Q, (top + eps)%Q)
           (lft, top, rgt, bot) = true)
  /\ ((lft < rgt)%Q -> (top < bot)%Q ->
      exists eps : Q,
        (0 < eps)%Q /\
        is_point_in_rectangle ((lft + eps)%Q, (top + eps)%Q)
          (lft, top, rgt, bot) = true).
Proof.
  assert (Hiff : forall x y : Q,
             is_point_in_rectangle (x, y) (lft, top, rgt, bot) = true <->
             ((lft < x)%Q /\ (x < rgt)%Q) /\ ((top < y)%Q /\ (y < bot)%Q)).
  { intros x y. apply (is_point_in_rectangle_spec (x, y) (lft, top, rgt, bot)). }
  assert (Heps : forall eps : Q,
             (0 < eps)%Q -> (eps < rgt - lft)%Q -> (eps < bot - top)%Q ->
             is_point_in_rectangle ((lft + eps)%Q, (top + eps)%Q)
               (lft, top, rgt, bot) = true).
  { intros eps H0 Hw Hh. apply Hiff. repeat split; lra. }
  split; [exact Hiff |].
  split.
  { intros x y Hb.
    destruct (is_point_in_rectangle (x, y) (lft, top, rgt, bot)) eqn:E;
      [| reflexivity].
    apply Hiff in E. destruct E as [[H1 H2] [H3 H4]].
    exfalso. destruct Hb as [Hb | [Hb | [Hb | Hb]]]; rewrite Hb in *;
      eapply Qlt_irrefl; eassumption. }
  split.
  { unfold is_point_in_rectangle. now rewrite Qltb_irrefl. }
  split; [exact Heps |].
  intros Hw Hh.
  destruct (Qlt_le_dec (rgt - lft) (bot - top)) as [Hlt | Hle].
  - exists ((rgt - lft) / 2)%Q. split.
    + apply Qlt_shift_div_l; lra.
    + apply Heps.
      * apply Qlt_shift_div_l; lra.
      * apply Qlt_shift_div_r; lra.
      * apply Qlt_shift_div_r; lra.
  - exists ((bot - top) / 2)%Q. split.
    + apply Qlt_shift_div_l; lra.
    + apply Heps.
      * apply Qlt_shift_div_l; lra.
      * apply Qlt_shift_div_r; lra.
      * apply Qlt_shift_div_r; lra.
Qed.

(** The rule at a concrete zone: the pixel rectangle [(10, 10, 90, 90)]
    with [eps = 1/1000]. *)
Lemma is_point_in_rectangle_open_interval_witness :
  is_point_in_rectangle (10, 10)%Q (10, 10, 90, 90)%Q = false
  /\ is_point_in_rectangle ((10 + (1 # 1000))%Q, (10 + (1 # 1000))%Q)
       (10, 10, 90, 90)%Q = true.
Proof.
  destruct (is_point_in_rectangle_open_interval 10 10 90 90)
    as [_ [_ [Hcorner [Heps _]]]].
  split.
  - exact Hcorner.
  - apply Heps; reflexivity.
Defined.

(* ----------------------------------------------------------------- *)
(** ** Anchor point and suppression *)

Lemma py_max_Qmax (a b : Q) : py_max a b = Qmax a b.
Proof.
  unfold py_max, Qltb, Qmax, GenericMinMax.gmax.
  destruct (a ?= b)%Q; reflexivity.
Qed.

Lemma py_max_inject_Z (a b : Z) :
  py_max (inject_Z a) (inject_Z b) = inject_Z (Z.max a b).
Proof.
  unfold py_max. destruct (Qltb (inject_Z a) (inject_Z b)) eqn:E.
  - apply Qltb_lt in E. rewrite <- Zlt_Qlt in E. f_equal. lia.
  - apply Qltb_ge in E. rewrite <- Zle_Qle in E. f_equal. lia.
Qed.

Lemma object_not_in_zones_false (zs : list zone) (fw fh : Z)
    (coords : Z * Z * Z * Z) :
  object_not_in_zones zs fw fh coords = false <->
  exists z, In z zs /\
            is_point_in_rectangle (anchor coords)
              (rectangle_coordinates z fw fh) = true.
Proof.
  induction zs as [| z rest IH]; simpl.
  - split; [discriminate | intros [z [[] _]]].
  - destruct (is_point_in_rectangle (anchor coords)
                (rectangle_coordinates z fw fh)) eqn:E.
    + split; [intros _ | reflexivity]. exists z. auto.
    + rewrite IH. split.
      * intros [z' [Hin Hz']]. exists z'. auto.
      * intros [z' [[Heq | Hin] Hz']].
        -- subst z'. rewrite E in Hz'. discriminate.
        -- exists z'. auto.
Qed.

Lemma all_below_spec (n : nat) (P : Z -> bool) :
  all_below n P = true -> forall k : Z, 0 <= k < Z.of_nat n -> P k = true.
Proof.
  induction n as [| n IH]; intros H k Hk; [lia |].
  cbn [all_below] in H. apply andb_true_iff in H. destruct H as [H1 H2].
  destruct (Z.eq_dec k (Z.of_nat n)) as [-> | Hne]; [exact H1 |].
  apply IH; [exact H2 | lia].
Qed.

(** For sums of two pixel coordinates below 4096 the division by 2 is
    exact, and so is the conversion of a coordinate to a double. *)
Lemma pixel_halves_are_exact :
  all_below (Z.to_nat 8192)
    (fun k => has_value (SFdiv 53 1024 (Binary64.of_int k) (Binary64.of_int 2))
                k 2) = true.
Proof. vm_compute. reflexivity. Qed.

Lemma pixel_coordinates_are_exact :
  all_below (Z.to_nat 4096) (fun k => has_value (Binary64.of_int k) k 1)
  = true.
Proof. vm_compute. reflexivity. Qed.

Lemma int64_add_no_wrap (a b : Z) :
  - 2 ^ 62 <= a < 2 ^ 62 -> - 2 ^ 62 <= b < 2 ^ 62 ->
  Binary64.int64_add a b = a + b.
Proof.
  intros Ha Hb. unfold Binary64.int64_add. rewrite Z.mod_small by lia. lia.
Qed.

Lemma binary64_object_not_in_zones_false
    (zs : list (Binary64.float64 * Binary64.float64
                * Binary64.float64 * Binary64.float64))
    (fw fh x1 y1 x2 y2 : Z) :
  Binary64.object_not_in_zones zs fw fh (x1, y1, x2, y2) = false <->
  exists z, In z zs /\
            Binary64.is_point_in_rectangle
              (Binary64.midpoint_bottom x1 y1 x2 y2)
              (Binary64.rectangle_coordinates z fw fh) = true.
Proof.
  induction zs as [| z rest IH]; cbn [Binary64.object_not_in_zones].
  - split; [discriminate | intros [z [[] _]]].
  - destruct (Binary64.is_point_in_rectangle
                (Binary64.midpoint_bottom x1 y1 x2 y2)
                (Binary64.rectangle_coordinates z fw fh)) eqn:E.
    + split; [intros _ | reflexivity]. exists z. split; [now left | exact E].
    + rewrite IH. split.
      * intros [z' [Hin Hz']]. exists z'. split; [now right | exact Hz'].
      * intros [z' [[Heq | Hin] Hz']].
        -- subst z'. rewrite E in Hz'. discriminate.
        -- exists z'. auto.
Qed.

(** C6.  For the pixel box [(x1, y1, x2, y2)] of a detection, the anchor
    the loop tests is the horizontal midpoint [(x1 + x2) / 2] paired with the
    larger of [y1] and [y2]: in the arithmetic of the code the double
    [float(x1 + x2) / 2.0] and the double of the larger bound, which for
    pixel coordinates below 4096 are exactly those two numbers.  The
    detection is suppressed ([object_not_in_zones] ends [False]) exactly
    when, for some zone [(zx1, zy1, zx2, zy2)] of the camera,
    [zx1 * frame_width < x < zx2 * frame_width] and
    [zy1 * frame_height < y < zy2 * frame_height] for that anchor [(x, y)],
    products and comparisons being those of doubles. *)
Theorem anchor_and_zone_suppression
    (zs : list (Binary64.float64 * Binary64.float64
                * Binary64.float64 * Binary64.float64))
    (frame_width frame_height x1 y1 x2 y2 : Z) :
  (- 2 ^ 62 <= x1 < 2 ^ 62 -> - 2 ^ 62 <= x2 < 2 ^ 62 ->
   Binary64.midpoint_bottom x1 y1 x2 y2
   = (SFdiv 53 1024 (Binary64.of_int (x1 + x2)) (Binary64.of_int 2),
      Binary64.of_int (Z.max y1 y2)))
  /\ (0 <= x1 < 4096 -> 0 <= x2 < 4096 ->
      0 <= y1 < 4096 -> 0 <= y2 < 4096 ->
      has_value (fst (Binary64.midpoint_bottom x1 y1 x2 y2)) (x1 + x2) 2
      = true
      /\ has_value (snd (Binary64.midpoint_bottom x1 y1 x2 y2))
           (Z.max y1 y2) 1 = true)
  /\ (Binary64.object_not_in_zones zs frame_width frame_height
        (x1, y1, x2, y2) = false
      <->
      exists zx1 zy1 zx2 zy2 : Binary64.float64,
        In (zx1, zy1, zx2, zy2) zs
        /\ SFltb (SFmul 53 1024 zx1 (Binary64.of_int frame_width))
             (fst (Binary64.midpoint_bottom x1 y1 x2 y2)) = true
        /\ SFltb (fst (Binary64.midpoint_bottom x1 y1 x2 y2))
             (SFmul 53 1024 zx2 (Binary64.of_int frame_width)) = true
        /\ SFltb (SFmul 53 1024 zy1 (Binary64.of_int frame_height))
             (snd (Binary64.midpoint_bottom x1 y1 x2 y2)) = true
        /\ SFltb (snd (Binary64.midpoint_bottom x1 y1 x2 y2))
             (SFmul 53 1024 zy2 (Binary64.of_int frame_height)) = true).
Proof.
  assert (Hmax : (if y1 <? y2 then y2 else y1) = Z.max y1 y2).
  { destruct (y1 <? y2) eqn:E;
      [apply Z.ltb_lt in E | apply Z.ltb_ge in E]; lia. }
  split; [| split].
  - intros Hx1 Hx2. unfold Binary64.midpoint_bottom.
    now rewrite (int64_add_no_wrap x1 x2 Hx1 Hx2), Hmax.
  - intros Hx1 Hx2 Hy1 Hy2. unfold Binary64.midpoint_bottom. cbn [fst snd].
    rewrite (int64_add_no_wrap x1 x2) by lia. rewrite Hmax.
    split.
    + apply (all_below_spec _ _ pixel_halves_are_exact (x1 + x2)).
      rewrite Z2Nat.id by lia. lia.
    + apply (all_below_spec _ _ pixel_coordinates_are_exact (Z.max y1 y2)).
      rewrite Z2Nat.id by lia. lia.
  - rewrite binary64_object_not_in_zones_false.
    destruct (Binary64.midpoint_bottom x1 y1 x2 y2) as [ax ay]. cbn [fst snd].
    split.
    + intros [[[[zx1 zy1] zx2] zy2] [Hin Hz]].
      exists zx1, zy1, zx2, zy2. split; [exact Hin |].
      unfold Binary64.is_point_in_rectangle, Binary64.rectangle_coordinates
        in Hz.
      rewrite !andb_true_iff in Hz. tauto.
    + intros [zx1 [zy1 [zx2 [zy2 [Hin [H1 [H2 [H3 H4]]]]]]]].
      exists (zx1, zy1, zx2, zy2). split; [exact Hin |].
      unfold Binary64.is_point_in_rectangle, Binary64.rectangle_coordinates.
      now rewrite H1, H2, H3, H4.
Qed.

(** The box [(40, 20, 60, 85)] under the zone [(0.1, 0.1, 0.9, 0.9)] on 100
    by 100 pixels: its anchor is exactly [(50, 85)] and it is suppressed. *)
Lemma anchor_and_zone_suppression_witness :
  has_value (fst (Binary64.midpoint_bottom 40 20 60 85)) 100 2 = true
  /\ has_value (snd (Binary64.midpoint_bottom 40 20 60 85)) 85 1 = true
  /\ Binary64.object_not_in_zones [Binary64.zone_01_09] 100 100
       (40, 20, 60, 85) = false.
Proof.
  destruct (anchor_and_zone_suppression [Binary64.zone_01_09] 100 100
              40 20 60 85) as [_ [Hv Hiff]].
  destruct Hv as [Hx Hy]; try lia.
  split; [exact Hx |]. split; [exact Hy |].
  apply Hiff.
  exists Binary64.lit_0_1, Binary64.lit_0_1, Binary64.lit_0_9,
    Binary64.lit_0_9.
  split; [now left |]. repeat split; vm_compute; reflexivity.
Defined.

(** The edges of the rectangle are the rounded products.  The zone edge
    0.29 on 100 pixels is the double just below 29, so a box whose anchor has
    [x = 29] is suppressed, which the exact product 29 would not do; the
    zone edge 0.1 on 640 pixels is the double 64, so as a right edge it
    leaves out the anchor with [x = 64], which the exact product of the
    double 0.1, just above 64, would take in. *)
Lemma zone_edges_are_rounded_products :
  Binary64.object_not_in_zones
    [(Binary64.lit_0_29, Binary64.lit_0_1, Binary64.lit_0_9,
      Binary64.lit_0_9)] 100 100 (28, 20, 30, 50) = false
  /\ object_not_in_zones [((29 # 100), (1 # 10), (9 # 10), (9 # 10))%Q]
       100 100 (28, 20, 30, 50) = true
  /\ Binary64.rectangle_coordinates
       (Binary64.of_int 0, Binary64.of_int 0, Binary64.lit_0_1,
        Binary64.of_int 1) 640 640
     = (Binary64.of_int 0, Binary64.of_int 0, Binary64.of_int 64,
        Binary64.of_int 640)
  /\ Binary64.object_not_in_zones
       [(Binary64.of_int 0, Binary64.of_int 0, Binary64.lit_0_1,
         Binary64.of_int 1)] 640 640 (60, 20, 68, 50) = true.
Proof. repeat split; vm_compute; reflexivity. Qed.

(* ----------------------------------------------------------------- *)
(** ** The zone (0.1, 0.1, 0.9, 0.9) on a frame of 100 by 100 pixels *)

Lemma object_not_in_zones_same_anchor (zs : list zone) (fw fh : Z)
    (coords : Z * Z * Z * Z) (p : Q * Q) :
  same_point (anchor coords) p ->
  (forall z, In z zs ->
             is_point_in_rectangle p (rectangle_coordinates z fw fh) = false) ->
  object_not_in_zones zs fw fh coords = true.
Proof.
  intros [Hx Hy] Hout.
  destruct (object_not_in_zones zs fw fh coords) eqn:E; [reflexivity |].
  apply object_not_in_zones_false in E. destruct E as [z [Hin Hz]].
  destruct (anchor coords) as [ax ay], p as [px py]. simpl in Hx, Hy.
  rewrite (is_point_in_rectangle_compat ax ay px py _ Hx Hy) in Hz.
  rewrite (Hout z Hin) in Hz. discriminate.
Qed.

(** C8, as the design states it, fails: the box [(40, 20, 60, 95)] has the
    anchor [(50, 95)], which is not inside the zone's rectangle
    [(10, 10, 90, 90)], and the detection is not suppressed. *)
Lemma anchor_50_95_not_suppressed :
  same_point (anchor (40, 20, 60, 95)) (50, 95)%Q
  /\ is_point_in_rectangle (50, 95)%Q
       (rectangle_coordinates zone_01_09 100 100) = false
  /\ object_not_in_zones [zone_01_09] 100 100 (40, 20, 60, 95) = true.
Proof. repeat split. Qed.

(** C8, amended.  The zone [(0.1, 0.1, 0.9, 0.9)] on a frame of 100 by 100
    pixels is the rectangle [(10, 10, 90, 90)].  The anchor [(50, 95)] is
    outside it (95 is not above the lower edge 90) and so is [(5, 5)]: a
    detection with either anchor is not suppressed.  The anchor [(50, 85)]
    is inside and a detection with it is suppressed. *)
Theorem zone_scenario_100_by_100 :
  is_point_in_rectangle (50, 95)%Q (rectangle_coordinates zone_01_09 100 100)
  = false
  /\ is_point_in_rectangle (5, 5)%Q (rectangle_coordinates zone_01_09 100 100)
     = false
  /\ is_point_in_rectangle (50, 85)%Q (rectangle_coordinates zone_01_09 100 100)
     = true
  /\ (forall coords : Z * Z * Z * Z,
         same_point (anchor coords) (50, 95)%Q ->
         object_not_in_zones [zone_01_09] 100 100 coords = true)
  /\ (forall coords : Z * Z * Z * Z,
         same_point (anchor coords) (5, 5)%Q ->
         object_not_in_zones [zone_01_09] 100 100 coords = true)
  /\ (forall coords : Z * Z * Z * Z,
         same_point (anchor coords) (50, 85)%Q ->
         object_not_in_zones [zone_01_09] 100 100 coords = false).
Proof.
  split; [reflexivity |]. split; [reflexivity |]. split; [reflexivity |].
  split; [| split].
  - intros coords Hp.
    apply (object_not_in_zones_same_anchor _ _ _ _ _ Hp).
    intros z [<- | []]. reflexivity.
  - intros coords Hp.
    apply (object_not_in_zones_same_anchor _ _ _ _ _ Hp).
    intros z [<- | []]. reflexivity.
  - intros coords [Hx Hy]. apply object_not_in_zones_false.
    exists zone_01_09. split; [now left |].
    destruct (anchor coords) as [ax ay]. simpl in Hx, Hy.
    now rewrite (is_point_in_rectangle_compat ax ay 50 85 _ Hx Hy).
Qed.

(** The scenario at the boxes [(40, 20, 60, 95)], [(0, 0, 10, 5)] and
    [(40, 20, 60, 85)]. *)
Lemma zone_scenario_100_by_100_witness :
  object_not_in_zones [zone_01_09] 100 100 (40, 20, 60, 95) = true
  /\ object_not_in_zones [zone_01_09] 100 100 (0, 0, 10, 5) = true
  /\ object_not_in_zones [zone_01_09] 100 100 (40, 20, 60, 85) = false.
Proof.
  destruct zone_scenario_100_by_100 as [_ [_ [_ [H95 [H5 H85]]]]].
  split; [| split].
  - apply H95. split; reflexivity.
  - apply H5. split; reflexivity.
  - apply H85. split; reflexivity.
Defined.

(** In binary64 the scaled zone is the rectangle [(10, 10, 90, 90)] with
    no rounding error, and the three boxes fare as with rationals: the
    anchors [(50, 95)] and [(5, 5)] are outside, [(50, 85)] is inside. *)
Lemma zone_scenario_binary64 :
  Binary64.rectangle_coordinates Binary64.zone_01_09 100 100
  = (Binary64.of_int 10, Binary64.of_int 10,
     Binary64.of_int 90, Binary64.of_int 90)
  /\ Binary64.midpoint_bottom 40 20 60 95
     = (Binary64.of_int 50, Binary64.of_int 95)
  /\ Binary64.is_point_in_rectangle (Binary64.midpoint_bottom 40 20 60 95)
       (Binary64.rectangle_coordinates Binary64.zone_01_09 100 100) = false
  /\ Binary64.is_point_in_rectangle (Binary64.midpoint_bottom 0 0 10 5)
       (Binary64.rectangle_coordinates Binary64.zone_01_09 100 100) = false
  /\ Binary64.is_point_in_rectangle (Binary64.midpoint_bottom 40 20 60 85)
       (Binary64.rectangle_coordinates Binary64.zone_01_09 100 100) = true.
Proof. repeat split; vm_compute; reflexivity. Qed.

(* ----------------------------------------------------------------- *)
(** ** The notification condition *)

Lemma send_frame_condition_bool (time_diff : Z)
    (camera_vc : BufferlessVideoCapture) (cfg : config) :
  send_frame_condition time_diff camera_vc cfg
  = (timedelta_seconds (bot_frame_timeout cfg) <? time_diff)
    && (min_detections_in_a_row cfg <=? detections_in_a_row camera_vc).
Proof.
  unfold send_frame_condition.
  destruct ((timedelta_seconds (bot_frame_timeout cfg) <? time_diff)
            && (min_detections_in_a_row cfg <=? detections_in_a_row camera_vc));
    reflexivity.
Qed.

(** C5.  [send_frame_condition] is true exactly when the streak
    [detections_in_a_row] is at least [min_detections_in_a_row] and the time
    since the last notification exceeds [bot_frame_timeout] seconds.  It is
    false when the streak is below the minimum, whatever the elapsed time,
    and false when the elapsed time does not exceed the interval, whatever
    the streak. *)
Theorem send_frame_condition_iff (time_diff : Z)
    (camera_vc : BufferlessVideoCapture) (cfg : config) :
  (send_frame_condition time_diff camera_vc cfg = true <->
   detections_in_a_row camera_vc >= min_detections_in_a_row cfg
   /\ time_diff > timedelta_seconds (bot_frame_timeout cfg))
  /\ (detections_in_a_row camera_vc < min_detections_in_a_row cfg ->
      send_frame_condition time_diff camera_vc cfg = false)
  /\ (time_diff <= timedelta_seconds (bot_frame_timeout cfg) ->
      send_frame_condition time_diff camera_vc cfg = false).
Proof.
  rewrite send_frame_condition_bool.
  split; [| split].
  - rewrite andb_true_iff, Z.ltb_lt, Z.leb_le. lia.
  - intro H. apply andb_false_iff. right. apply Z.leb_gt. lia.
  - intro H. apply andb_false_iff. left. apply Z.ltb_ge. lia.
Qed.

(** The condition with a minimum streak of 3 and an interval of 60 s: three
    detections in a row 61 s after the last notification qualify, two do
    not, and three after 60 s do not. *)
Lemma send_frame_condition_iff_witness :
  send_frame_condition (timedelta_seconds 61) (session [] 3 0) (sample_config 3)
  = true
  /\ send_frame_condition (timedelta_seconds 61) (session [] 2 0)
       (sample_config 3) = false
  /\ send_frame_condition (timedelta_seconds 60) (session [] 3 0)
       (sample_config 3) = false.
Proof.
  split; [| split].
  - apply (proj1 (send_frame_condition_iff (timedelta_seconds 61)
                    (session [] 3 0) (sample_config 3))).
    vm_compute. split; [discriminate | reflexivity].
  - apply (proj1 (proj2 (send_frame_condition_iff (timedelta_seconds 61)
                           (session [] 2 0) (sample_config 3)))).
    reflexivity.
  - apply (proj2 (proj2 (send_frame_condition_iff (timedelta_seconds 60)
                           (session [] 3 0) (sample_config 3)))).
    vm_compute. discriminate.
Defined.

(* ----------------------------------------------------------------- *)
(** ** [read] and the timeout counter *)

(** C2, as the design states it, fails: after three timeouts the reader
    publishes a frame and the next [read] returns it; the counter is then
    still 3, not 0. *)
Lemma read_success_keeps_counter :
  exists s : system,
    run three_timeouts_then_frame (start "Camera_1" [] false)
    = Some (s, [Taken None; Taken None; Taken None;
                Published (frame_640_480 7);
                Taken (Some (frame_640_480 7))])
    /\ queue_timeouts_counter (fst s) = 3
    /\ queue_timeouts_counter (fst s) <> 0.
Proof.
  exists after_three_timeouts_then_frame.
  split; [vm_compute; reflexivity |]. split; [reflexivity | discriminate].
Qed.

(** C2, amended.  When a frame is pending, [read] returns it, removes it
    from the queue and leaves [queue_timeouts_counter] unchanged; when none
    arrives, [read] returns [None], raising nothing, and the counter grows
    by exactly 1.  No other attribute changes either way. *)
Theorem read_counter (c : BufferlessVideoCapture) :
  match q c with
  | frame :: rest =>
      read c = (set_q rest c, Some frame)
      /\ queue_timeouts_counter (fst (read c)) = queue_timeouts_counter c
  | [] =>
      snd (read c) = None
      /\ queue_timeouts_counter (fst (read c)) = queue_timeouts_counter c + 1
      /\ q (fst (read c)) = []
  end
  /\ detections_in_a_row (fst (read c)) = detections_in_a_row c
  /\ last_detection_dt (fst (read c)) = last_detection_dt c
  /\ _stop (fst (read c)) = _stop c
  /\ cap_releases (fst (read c)) = cap_releases c.
Proof.
  unfold read. destruct (q c) as [| frame rest] eqn:E; simpl;
    rewrite ?E; repeat split; reflexivity.
Qed.

(* ----------------------------------------------------------------- *)
(** ** [calculate_frame_size] *)

(** C10.  [calculate_frame_size] uses the result of [read] without testing
    it.  When [read] times out it raises (the attribute [shape] of [None]),
    and the timeout has been counted; it returns a pair only when [read]
    delivered a frame, and then the pair is [imgsz] and the frame's height
    scaled by [imgsz / width]. *)
Theorem calculate_frame_size_needs_frame (c : BufferlessVideoCapture)
    (cfg : config) :
  match snd (read c) with
  | None =>
      snd (calculate_frame_size c cfg) = inl AttributeError
      /\ queue_timeouts_counter (fst (calculate_frame_size c cfg))
         = queue_timeouts_counter c + 1
  | Some frame =>
      snd (calculate_frame_size c cfg)
      = if shape1 frame =? 0 then inl ZeroDivisionError
        else inr (imgsz cfg, Z.quot (shape0 frame * imgsz cfg) (shape1 frame))
  end
  /\ (forall size : Z * Z,
         snd (calculate_frame_size c cfg) = inr size ->
         exists frame : ndarray, snd (read c) = Some frame /\ q c <> []).
Proof.
  unfold calculate_frame_size, read.
  destruct (q c) as [| frame rest] eqn:E; simpl.
  - split; [split; reflexivity |]. intros size H. discriminate H.
  - split.
    + destruct (shape1 frame =? 0); reflexivity.
    + intros size _. exists frame. split; [reflexivity | discriminate].
Qed.

(** On an empty queue the call raises; on a pending frame of 640 by 480 it
    returns (640, 480). *)
Lemma calculate_frame_size_needs_frame_witness :
  snd (calculate_frame_size (session [] 0 0) (sample_config 3))
  = inl AttributeError
  /\ snd (calculate_frame_size (session [frame_640_480 1] 0 0) (sample_config 3))
     = inr (640, 480)
  /\ exists frame : ndarray,
       snd (read (session [frame_640_480 1] 0 0)) = Some frame
       /\ q (session [frame_640_480 1] 0 0) <> [].
Proof.
  split; [| split].
  - exact (proj1 (proj1 (calculate_frame_size_needs_frame (session [] 0 0)
                           (sample_config 3)))).
  - exact (proj1 (calculate_frame_size_needs_frame
                    (session [frame_640_480 1] 0 0) (sample_config 3))).
  - apply (proj2 (calculate_frame_size_needs_frame
                    (session [frame_640_480 1] 0 0) (sample_config 3))
             (640, 480)).
    reflexivity.
Defined.

(* ----------------------------------------------------------------- *)
(** ** The streak across passes of the loop *)

Lemma scan_boxes_existsb (cfg : config) (zs : list zone) (fw fh : Z)
    (boxes : list Box) (any : bool) :
  scan_boxes cfg zs fw fh boxes any
  = any || existsb (counts cfg zs fw fh) boxes.
Proof.
  unfold scan_boxes. revert any.
  induction boxes as [| box rest IH]; intro any; simpl.
  - now rewrite orb_false_r.
  - rewrite IH. unfold counts.
    destruct (box_selected cfg box),
             (object_not_in_zones zs fw fh (coordinates box)), any;
      reflexivity.
Qed.

Lemma scan_results_existsb (cfg : config) (zs : list zone) (fw fh : Z)
    (rs : list (list Box)) :
  scan_results cfg zs fw fh rs
  = existsb (fun boxes => existsb (counts cfg zs fw fh) boxes) rs.
Proof.
  unfold scan_results.
  assert (H : forall any,
             fold_left (fun a boxes => scan_boxes cfg zs fw fh boxes a) rs any
             = any || existsb (fun boxes => existsb (counts cfg zs fw fh) boxes)
                        rs).
  { induction rs as [| boxes rest IH]; intro any; simpl.
    - now rewrite orb_false_r.
    - rewrite IH, scan_boxes_existsb. now rewrite orb_assoc. }
  now rewrite H.
Qed.

Lemma scan_results_false (cfg : config) (zs : list zone) (fw fh : Z)
    (rs : list (list Box)) :
  scan_results cfg zs fw fh rs = false <->
  (forall boxes box,
      In boxes rs -> In box boxes -> box_selected cfg box = true ->
      object_not_in_zones zs fw fh (coordinates box) = false).
Proof.
  rewrite scan_results_existsb. split.
  - intros H boxes box Hrs Hbox Hsel.
    destruct (object_not_in_zones zs fw fh (coordinates box)) eqn:E;
      [| reflexivity].
    assert (Ht : existsb (fun bs => existsb (counts cfg zs fw fh) bs) rs = true).
    { apply existsb_exists. exists boxes. split; [exact Hrs |].
      apply existsb_exists. exists box. split; [exact Hbox |].
      unfold counts. now rewrite Hsel, E. }
    rewrite H in Ht. discriminate.
  - intro H.
    destruct (existsb (fun bs => existsb (counts cfg zs fw fh) bs) rs) eqn:E;
      [| reflexivity].
    apply existsb_exists in E. destruct E as [boxes [Hrs E]].
    apply existsb_exists in E. destruct E as [box [Hbox E]].
    unfold counts in E. apply andb_true_iff in E. destruct E as [Hsel Hout].
    rewrite (H boxes box Hrs Hbox Hsel) in Hout. discriminate.
Qed.

(** C9.  A pass in which [read] yields no frame leaves
    [detections_in_a_row] as it was; a pass in which a frame is obtained and
    no selected box lies outside the zones sets it to 0 (and one with such a
    box adds 1). *)
Theorem streak_reset_asymmetry (cfg : config) (frame_width frame_height : Z)
    (inp : cycle_input) (c : BufferlessVideoCapture) :
  (q c = [] ->
   detections_in_a_row (fst (camera_cycle cfg frame_width frame_height inp c))
   = detections_in_a_row c)
  /\ (q c <> [] ->
      (forall boxes box,
          In boxes (results inp) -> In box boxes ->
          box_selected cfg box = true ->
          object_not_in_zones (zones c) frame_width frame_height
            (coordinates box) = false) ->
      detections_in_a_row (fst (camera_cycle cfg frame_width frame_height inp c))
      = 0)
  /\ (q c <> [] ->
      scan_results cfg (zones c) frame_width frame_height (results inp) = true ->
      detections_in_a_row (fst (camera_cycle cfg frame_width frame_height inp c))
      = detections_in_a_row c + 1).
Proof.
  unfold camera_cycle, read.
  destruct (q c) as [| frame rest] eqn:E; simpl.
  - split; [reflexivity |]. split; intro H; exfalso; now apply H.
  - split; [discriminate |]. split.
    + intros _ H. apply scan_results_false in H. now rewrite H.
    + intros _ H. rewrite H.
      destruct (send_frame_condition _ _ cfg); reflexivity.
Qed.

(** A streak of 2: a timed-out pass keeps it at 2, a pass on a frame whose
    only box is of a class not looked for puts it to 0, and a pass on a
    frame with a person above the confidence makes it 3. *)
Lemma streak_reset_asymmetry_witness :
  detections_in_a_row
    (fst (camera_cycle (sample_config 3) 640 480 (pass_with [])
            (session [] 2 0))) = 2
  /\ detections_in_a_row
       (fst (camera_cycle (sample_config 3) 640 480
               (pass_with [mk_box 7 (9 # 10) (10, 10, 50, 50)%Q])
               (session [frame_640_480 1] 2 0))) = 0
  /\ detections_in_a_row
       (fst (camera_cycle (sample_config 3) 640 480
               (pass_with [mk_box 0 (9 # 10) (10, 10, 50, 50)%Q])
               (session [frame_640_480 1] 2 0))) = 3.
Proof.
  split; [| split].
  - apply (proj1 (streak_reset_asymmetry (sample_config 3) 640 480
                    (pass_with []) (session [] 2 0))).
    reflexivity.
  - apply (proj1 (proj2 (streak_reset_asymmetry (sample_config 3) 640 480
                           (pass_with [mk_box 7 (9 # 10) (10, 10, 50, 50)%Q])
                           (session [frame_640_480 1] 2 0)))).
    + discriminate.
    + intros boxes box [<- | []] [<- | []] Hsel. discriminate Hsel.
  - apply (proj2 (proj2 (streak_reset_asymmetry (sample_config 3) 640 480
                           (pass_with [mk_box 0 (9 # 10) (10, 10, 50, 50)%Q])
                           (session [frame_640_480 1] 2 0)))).
    + discriminate.
    + reflexivity.
Defined.

(* ----------------------------------------------------------------- *)
(** ** The failure report *)

Lemma failure_reports_app (es1 es2 : list effect) :
  failure_reports (es1 ++ es2)
  = (failure_reports es1 + failure_reports es2)%nat.
Proof. unfold failure_reports. now rewrite filter_app, length_app. Qed.

Lemma failure_reports_check (c : BufferlessVideoCapture) (verbose_level : Z)
    (cfg : config) :
  failure_reports (check_and_report_camera_failure c verbose_level cfg)
  = if (queue_timeouts_counter c =? timeout_count_before_message cfg)
       && (verbose_level <=? runtime_verbose_level cfg)
    then 1%nat else 0%nat.
Proof.
  unfold check_and_report_camera_failure.
  destruct ((queue_timeouts_counter c =? timeout_count_before_message cfg)
            && (verbose_level <=? runtime_verbose_level cfg)); reflexivity.
Qed.

(** A pass on an empty queue: the timeout is counted, then reported on. *)
Lemma camera_cycle_timeout (cfg : config) (fw fh : Z) (inp : cycle_input)
    (c : BufferlessVideoCapture) :
  q c = [] ->
  camera_cycle cfg fw fh inp c
  = (set_queue_timeouts_counter (queue_timeouts_counter c + 1) c,
     check_and_report_camera_failure
       (set_queue_timeouts_counter (queue_timeouts_counter c + 1) c) 2 cfg).
Proof. intro E. unfold camera_cycle, read. now rewrite E. Qed.

(** Passes on a queue that stays empty: every pass times out, and one
    report goes out if the counter passes through the threshold and the
    verbosity admits level 2. *)
Lemma camera_cycles_timeouts (cfg : config) (fw fh : Z)
    (inps : list cycle_input) :
  forall c : BufferlessVideoCapture,
    q c = [] ->
    q (fst (camera_cycles cfg fw fh inps c)) = []
    /\ queue_timeouts_counter (fst (camera_cycles cfg fw fh inps c))
       = queue_timeouts_counter c + Z.of_nat (List.length inps)
    /\ failure_reports (snd (camera_cycles cfg fw fh inps c))
       = if (queue_timeouts_counter c <? timeout_count_before_message cfg)
            && (timeout_count_before_message cfg
                <=? queue_timeouts_counter c + Z.of_nat (List.length inps))
            && (2 <=? runtime_verbose_level cfg)
         then 1%nat else 0%nat.
Proof.
  induction inps as [| inp rest IH]; intros c E.
  - simpl. split; [exact E |]. split; [lia |].
    destruct (queue_timeouts_counter c <? timeout_count_before_message cfg) eqn:A,
             (timeout_count_before_message cfg <=? queue_timeouts_counter c + 0) eqn:B;
      simpl; try reflexivity.
    apply Z.ltb_lt in A. apply Z.leb_le in B. lia.
  - cbn [camera_cycles]. rewrite (camera_cycle_timeout cfg fw fh inp c E).
    set (c1 := set_queue_timeouts_counter (queue_timeouts_counter c + 1) c).
    assert (E1 : q c1 = []) by exact E.
    destruct (IH c1 E1) as [Hq [Hn Hr]].
    destruct (camera_cycles cfg fw fh rest c1) as [c2 e2]. simpl in *.
    split; [exact Hq |]. split; [lia |].
    rewrite failure_reports_app, failure_reports_check, Hr. simpl.
    destruct (queue_timeouts_counter c + 1 =? timeout_count_before_message cfg) eqn:A,
             (2 <=? runtime_verbose_level cfg) eqn:V,
             (queue_timeouts_counter c + 1 <? timeout_count_before_message cfg) eqn:B,
             (timeout_count_before_message cfg
              <=? queue_timeouts_counter c + 1 + Z.of_nat (List.length rest)) eqn:C,
             (queue_timeouts_counter c <? timeout_count_before_message cfg) eqn:D,
             (timeout_count_before_message cfg
              <=? queue_timeouts_counter c + Z.pos (Pos.of_succ_nat (List.length rest))) eqn:F;
      simpl; try reflexivity; exfalso;
      rewrite ?Z.eqb_eq, ?Z.eqb_neq, ?Z.ltb_lt, ?Z.ltb_ge, ?Z.leb_le, ?Z.leb_gt
        in *; lia.
Qed.

(** C4, as the design states it, fails: with the counter equal to the
    threshold 5 and [runtime_verbose_level] 1, below the level 2 of the
    call, no report is sent; five timeouts in a row then produce none. *)
Lemma no_report_below_verbose_level :
  queue_timeouts_counter (session [] 0 5)
  = timeout_count_before_message (sample_config 1)
  /\ check_and_report_camera_failure (session [] 0 5) 2 (sample_config 1) = []
  /\ failure_reports
       (snd (camera_cycles (sample_config 1) 640 480
               (repeat (pass_with []) 5) (session [] 0 0))) = 0%nat.
Proof. repeat split. Qed.

(** C4, amended.  [check_and_report_camera_failure] sends a report exactly
    when [queue_timeouts_counter] equals [timeout_count_before_message] and
    [runtime_verbose_level] is at least the level of the call (2 in the
    loop); the comparison of the counter is an equality.  In a session that
    starts with the counter at 0, with a threshold [N >= 1] and a verbosity
    of at least 2, [N] passes that all time out send exactly one report, and
    a further timed-out pass sends none. *)
Theorem failure_report_exactly_at_threshold (cfg : config)
    (frame_width frame_height : Z) (inps : list cycle_input)
    (inp : cycle_input) (c : BufferlessVideoCapture) (verbose_level : Z) :
  (check_and_report_camera_failure c verbose_level cfg
   = [SendMessage (chat_id cfg)
        (CameraFailed (name c) (timeout_count_before_message cfg))]
   <-> queue_timeouts_counter c = timeout_count_before_message cfg
       /\ verbose_level <= runtime_verbose_level cfg)
  /\ (check_and_report_camera_failure c verbose_level cfg = []
      <-> ~ (queue_timeouts_counter c = timeout_count_before_message cfg
             /\ verbose_level <= runtime_verbose_level cfg))
  /\ (q c = [] ->
      queue_timeouts_counter c = 0 ->
      inps <> [] ->
      timeout_count_before_message cfg = Z.of_nat (List.length inps) ->
      2 <= runtime_verbose_level cfg ->
      failure_reports
        (snd (camera_cycles cfg frame_width frame_height inps c)) = 1%nat
      /\ queue_timeouts_counter
           (fst (camera_cycles cfg frame_width frame_height inps c))
         = timeout_count_before_message cfg
      /\ failure_reports
           (snd (camera_cycle cfg frame_width frame_height inp
                   (fst (camera_cycles cfg frame_width frame_height inps c))))
         = 0%nat
      /\ queue_timeouts_counter
           (fst (camera_cycle cfg frame_width frame_height inp
                   (fst (camera_cycles cfg frame_width frame_height inps c))))
         = timeout_count_before_message cfg + 1).
Proof.
  split; [| split].
  - unfold check_and_report_camera_failure.
    destruct ((queue_timeouts_counter c =? timeout_count_before_message cfg)
              && (verbose_level <=? runtime_verbose_level cfg)) eqn:E.
    + apply andb_true_iff in E. rewrite Z.eqb_eq, Z.leb_le in E. tauto.
    + apply andb_false_iff in E. rewrite Z.eqb_neq, Z.leb_gt in E.
      split; [discriminate | lia].
  - unfold check_and_report_camera_failure.
    destruct ((queue_timeouts_counter c =? timeout_count_before_message cfg)
              && (verbose_level <=? runtime_verbose_level cfg)) eqn:E.
    + apply andb_true_iff in E. rewrite Z.eqb_eq, Z.leb_le in E.
      split; [discriminate | tauto].
    + apply andb_false_iff in E. rewrite Z.eqb_neq, Z.leb_gt in E.
      split; [lia | reflexivity].
  - intros Hq H0 Hne HN Hv.
    destruct (camera_cycles_timeouts cfg frame_width frame_height inps c Hq)
      as [Hq' [Hn Hr]].
    assert (Hlen : (0 < List.length inps)%nat)
      by (destruct inps; [congruence | simpl; lia]).
    split; [| split; [| split]].
    + rewrite Hr, H0, HN.
      replace (0 <? Z.of_nat (List.length inps)) with true
        by (symmetry; apply Z.ltb_lt; lia).
      replace (Z.of_nat (List.length inps) <=? 0 + Z.of_nat (List.length inps))
        with true by (symmetry; apply Z.leb_le; lia).
      replace (2 <=? runtime_verbose_level cfg) with true
        by (symmetry; apply Z.leb_le; lia).
      reflexivity.
    + lia.
    + rewrite (camera_cycle_timeout _ _ _ _ _ Hq'). cbn [snd].
      rewrite failure_reports_check. cbn [queue_timeouts_counter
        set_queue_timeouts_counter].
      replace (queue_timeouts_counter
                 (fst (camera_cycles cfg frame_width frame_height inps c)) + 1
               =? timeout_count_before_message cfg) with false
        by (symmetry; apply Z.eqb_neq; lia).
      reflexivity.
    + rewrite (camera_cycle_timeout _ _ _ _ _ Hq'). cbn [fst].
      cbn [queue_timeouts_counter set_queue_timeouts_counter]. lia.
Qed.

(** Threshold 5 and verbosity 3: five timed-out passes of a fresh session
    send one report, the sixth sends none. *)
Lemma failure_report_exactly_at_threshold_witness :
  failure_reports
    (snd (camera_cycles (sample_config 3) 640 480 (repeat (pass_with []) 5)
            (session [] 0 0))) = 1%nat
  /\ failure_reports
       (snd (camera_cycle (sample_config 3) 640 480 (pass_with [])
               (fst (camera_cycles (sample_config 3) 640 480
                       (repeat (pass_with []) 5) (session [] 0 0))))) = 0%nat.
Proof.
  destruct (failure_report_exactly_at_threshold (sample_config 3) 640 480
              (repeat (pass_with []) 5) (pass_with []) (session [] 0 0) 2)
    as [_ [_ H]].
  destruct H as [H1 [_ [H2 _]]].
  - reflexivity.
  - reflexivity.
  - discriminate.
  - reflexivity.
  - vm_compute. discriminate.
  - split; [exact H1 | exact H2].
Defined.

(* ----------------------------------------------------------------- *)
(** ** Runs of the reader and the main thread *)

Lemma run_app (acts1 acts2 : list action) :
  forall s : system,
    run (acts1 ++ acts2) s
    = match run acts1 s with
      | None => None
      | Some (s1, tr1) =>
          match run acts2 s1 with
          | None => None
          | Some (s2, tr2) => Some (s2, tr1 ++ tr2)
          end
      end.
Proof.
  induction acts1 as [| a rest IH]; intro s; simpl.
  - destruct (run acts2 s) as [[s2 tr2] |]; reflexivity.
  - destruct (step a s) as [[s' o] |]; [| reflexivity].
    rewrite IH. destruct (run rest s') as [[s1 tr1] |]; [| reflexivity].
    destruct (run acts2 s1) as [[s2 tr2] |]; [| reflexivity].
    now rewrite app_assoc.
Qed.

Lemma last_published_app (tr1 tr2 : list obs) :
  forall acc,
    last_published (tr1 ++ tr2) acc
    = last_published tr2 (last_published tr1 acc).
Proof.
  induction tr1 as [| o rest IH]; intro acc; simpl; [reflexivity |].
  destruct o; apply IH.
Qed.

Lemma count_published_app (tr1 tr2 : list obs) :
  count_published (tr1 ++ tr2)
  = (count_published tr1 + count_published tr2)%nat.
Proof.
  induction tr1 as [| o rest IH]; simpl; [reflexivity |].
  destruct o; simpl; rewrite IH; reflexivity.
Qed.

Lemma count_released_app (tr1 tr2 : list obs) :
  count_released (tr1 ++ tr2)
  = (count_released tr1 + count_released tr2)%nat.
Proof.
  induction tr1 as [| o rest IH]; simpl; [reflexivity |].
  destruct o; simpl; rewrite IH; reflexivity.
Qed.

(** *** The slot *)

Lemma reader_step_channel_inv (decoded : option ndarray)
    (c c' : BufferlessVideoCapture) (o : list obs) (life : lifecycle)
    (last : option ndarray) :
  channel_inv (c, life) last ->
  reader_step decoded c = Some (c', o) ->
  channel_inv (c', life) (last_published o last).
Proof.
  intros [Hq Hput] H. unfold channel_inv in *. simpl in Hq, Hput |- *.
  unfold reader_step in H.
  destruct (t c) as [| | f | f | f | | |] eqn:Et.
  - (* the call of cap.read() *)
    injection H as <- <-. simpl. split; [exact Hq | discriminate].
  - (* its return *)
    destruct decoded as [f |]; [destruct (cap_releases c) |];
      injection H as <- <-; simpl; (split; [exact Hq | discriminate]).
  - (* q.empty() *)
    destruct (q c) as [| f0 rest] eqn:Eq; injection H as <- <-; simpl;
      rewrite ?Eq.
    + split; [now left | reflexivity].
    + split; [exact Hq | discriminate].
  - (* q.get_nowait() *)
    injection H as <- <-. simpl.
    assert (Htl : tl (q c) = [])
      by (destruct Hq as [-> | [f0 [-> _]]]; reflexivity).
    rewrite Htl. split; [now left | reflexivity].
  - (* q.put(frame) *)
    injection H as <- <-. simpl. rewrite (Hput f eq_refl). simpl.
    split; [right; exists f; split; reflexivity | discriminate].
  - (* the test of _stop *)
    destruct (_stop c) as [[|] |]; injection H as <- <-; simpl;
      (split; [exact Hq | discriminate]).
  - discriminate H.
  - discriminate H.
Qed.

Lemma step_channel_inv (a : action) (s s' : system) (o : list obs)
    (last : option ndarray) :
  channel_inv s last ->
  step a s = Some (s', o) ->
  channel_inv s' (last_published o last).
Proof.
  intros Hinv H. destruct s as [c life]. unfold step in H.
  destruct a as [decoded | | | |].
  - destruct (reader_step decoded c) as [[c' o'] |] eqn:E; [| discriminate].
    injection H as <- <-. eapply reader_step_channel_inv; eassumption.
  - destruct life; try discriminate. injection H as <- <-. exact Hinv.
  - destruct life; try discriminate.
    destruct Hinv as [Hq Hput]. simpl in Hq, Hput.
    unfold read in H. destruct (q c) as [| f rest] eqn:Eq;
      injection H as <- <-; unfold channel_inv; simpl; rewrite ?Eq.
    + split; [now left | intros f E; reflexivity].
    + destruct Hq as [Hq | [f0 [Hq _]]]; [discriminate |].
      injection Hq as -> ->. split; [now left | intros f E; reflexivity].
  - destruct life; try discriminate. injection H as <- <-. exact Hinv.
  - destruct life; try discriminate. injection H as <- <-. exact Hinv.
Qed.

Lemma run_channel_inv (acts : list action) :
  forall (s s' : system) (tr : list obs) (last : option ndarray),
    channel_inv s last ->
    run acts s = Some (s', tr) ->
    channel_inv s' (last_published tr last).
Proof.
  induction acts as [| a rest IH]; intros s s' tr last Hinv H; simpl in H.
  - injection H as <- <-. exact Hinv.
  - destruct (step a s) as [[s1 o] |] eqn:E; [| discriminate].
    destruct (run rest s1) as [[s2 os] |] eqn:R; [| discriminate].
    injection H as <- <-. rewrite last_published_app.
    eapply IH; [| exact R]. eapply step_channel_inv; eassumption.
Qed.

Lemma channel_inv_start (camera_name : string) (zs : list zone) (draw : bool) :
  channel_inv (start camera_name zs draw) None.
Proof. split; [now left | intros f E; reflexivity]. Qed.

(** C1.  In every state the reader and the main thread can reach from the
    construction of the session, the queue holds at most one frame.  Each
    [put] of the reader leaves the queue holding exactly the frame put: a
    frame still pending has been removed first.  Each [read] returns [None],
    and then nothing was pending, or the frame published last before it,
    which was the only one pending. *)
Theorem single_slot_channel (camera_name : string) (zs : list zone)
    (draw : bool) (acts : list action) (s : system) (tr : list obs) :
  run acts (start camera_name zs draw) = Some (s, tr) ->
  (List.length (q (fst s)) <= 1)%nat
  /\ (forall (a : action) (s' : system) (o : list obs) (frame : ndarray),
         step a s = Some (s', o) -> In (Published frame) o ->
         q (fst s') = [frame])
  /\ (forall (a : action) (s' : system) (o : list obs)
             (result : option ndarray),
         step a s = Some (s', o) -> In (Taken result) o ->
         match result with
         | None => q (fst s) = []
         | Some frame =>
             last_published tr None = Some frame
             /\ q (fst s) = [frame] /\ q (fst s') = []
         end).
Proof.
  intro Hrun.
  pose proof (run_channel_inv acts _ _ _ _
                (channel_inv_start camera_name zs draw) Hrun) as Hinv.
  split; [| split].
  - destruct Hinv as [[-> | [f [-> _]]] _]; simpl; lia.
  - intros a s' o frame Hstep Hin.
    pose proof (step_channel_inv a s s' o _ Hinv Hstep) as [Hq' _].
    destruct s as [c life]. unfold step in Hstep.
    destruct a as [decoded | | | |].
    + destruct (reader_step decoded c) as [[c' o'] |] eqn:E; [| discriminate].
      injection Hstep as <- <-. unfold reader_step in E.
      destruct Hinv as [_ Hput]. simpl in Hput.
      destruct (t c) as [| | f | f | f | | |] eqn:Et;
        repeat match type of E with
          | context [match ?x with _ => _ end] => destruct x
          end;
        try discriminate E; injection E as <- <-; try (now destruct Hin).
      destruct Hin as [Heq | []]. injection Heq as ->. simpl.
      now rewrite (Hput frame eq_refl).
    + destruct life; try discriminate. injection Hstep as <- <-.
      now destruct Hin.
    + destruct life; try discriminate. destruct (read c) as [c' r].
      injection Hstep as <- <-. destruct Hin as [Heq | []]. discriminate Heq.
    + destruct life; try discriminate. injection Hstep as <- <-.
      destruct Hin as [Heq | []]. discriminate Heq.
    + destruct life; try discriminate. injection Hstep as <- <-.
      destruct Hin as [Heq | []]. discriminate Heq.
  - intros a s' o result Hstep Hin.
    destruct s as [c life]. unfold step in Hstep.
    destruct a as [decoded | | | |].
    + destruct (reader_step decoded c) as [[c' o'] |] eqn:E; [| discriminate].
      injection Hstep as <- <-. unfold reader_step in E. exfalso.
      destruct (t c) as [| | f | f | f | | |];
        repeat match type of E with
          | context [match ?x with _ => _ end] => destruct x
          end;
        try discriminate E; injection E as <- <-;
        now destruct Hin.
    + destruct life; try discriminate. injection Hstep as <- <-.
      now destruct Hin.
    + destruct life; try discriminate. unfold read in Hstep.
      destruct Hinv as [Hq _]. simpl in Hq |- *.
      destruct (q c) as [| f rest] eqn:Eq; injection Hstep as <- <-;
        destruct Hin as [Heq | []]; injection Heq as <-.
      * reflexivity.
      * destruct Hq as [Hq | [f0 [Hq Hlast]]]; [discriminate |].
        injection Hq as -> ->. simpl. auto.
    + destruct life; try discriminate. injection Hstep as <- <-.
      destruct Hin as [Heq | []]. discriminate Heq.
    + destruct life; try discriminate. injection Hstep as <- <-.
      destruct Hin as [Heq | []]. discriminate Heq.
Qed.

(** Two frames published before a [read]: one frame is pending, and the
    [read] returns the second frame. *)
Lemma single_slot_channel_witness :
  run two_publishes (start "Camera_1" [] false)
  = Some (after_two_publishes,
          [Published (frame_640_480 1); Published (frame_640_480 2)])
  /\ (List.length (q (fst after_two_publishes)) <= 1)%nat
  /\ last_published
       [Published (frame_640_480 1); Published (frame_640_480 2)] None
     = Some (frame_640_480 2).
Proof.
  assert (Hrun : run two_publishes (start "Camera_1" [] false)
                 = Some (after_two_publishes,
                         [Published (frame_640_480 1);
                          Published (frame_640_480 2)]))
    by reflexivity.
  destruct (single_slot_channel _ _ _ _ _ _ Hrun) as [Hlen [_ Htake]].
  split; [exact Hrun |]. split; [exact Hlen |].
  exact (proj1 (Htake Read
                  (set_q [] (fst after_two_publishes), Constructed)
                  [Taken (Some (frame_640_480 2))]
                  (Some (frame_640_480 2)) eq_refl (or_introl eq_refl))).
Defined.

(** *** After a stop request *)

Lemma reader_step_after_stop (decoded : option ndarray)
    (c c' : BufferlessVideoCapture) (o : list obs) :
  _stop c = Some true ->
  reader_step decoded c = Some (c', o) ->
  _stop c' = Some true
  /\ (count_published o + pending_publishes (t c')
      <= pending_publishes (t c))%nat.
Proof.
  intros Hs H. unfold reader_step in H. rewrite Hs in H.
  destruct (t c) as [| | f | f | f | | |];
    repeat match type of H with
      | context [match ?x with _ => _ end] => destruct x
      end;
    try discriminate H; injection H as <- <-; simpl; split;
    try exact Hs; lia.
Qed.

Lemma step_after_stop (a : action) (s s' : system) (o : list obs) :
  _stop (fst s) = Some true -> snd s <> InInit ->
  step a s = Some (s', o) ->
  _stop (fst s') = Some true /\ snd s' <> InInit
  /\ (count_published o + pending_publishes (t (fst s'))
      <= pending_publishes (t (fst s)))%nat.
Proof.
  destruct s as [c life]. simpl. intros Hs Hl H. unfold step in H.
  destruct a as [decoded | | | |].
  - destruct (reader_step decoded c) as [[c' o'] |] eqn:E; [| discriminate].
    injection H as <- <-. simpl.
    destruct (reader_step_after_stop decoded c c' o' Hs E) as [H1 H2]. auto.
  - destruct life; try discriminate. now elim Hl.
  - destruct life; try discriminate. unfold read in H.
    destruct (q c); injection H as <- <-; simpl;
      (split; [exact Hs | split; [discriminate | lia]]).
  - destruct life; try discriminate. injection H as <- <-. simpl.
    split; [reflexivity | split; [discriminate | lia]].
  - destruct life; try discriminate. injection H as <- <-. simpl.
    split; [exact Hs | split; [discriminate | lia]].
Qed.

Lemma run_after_stop (acts : list action) :
  forall (s s' : system) (tr : list obs),
    _stop (fst s) = Some true -> snd s <> InInit ->
    run acts s = Some (s', tr) ->
    _stop (fst s') = Some true
    /\ (count_published tr <= pending_publishes (t (fst s)))%nat.
Proof.
  induction acts as [| a rest IH]; intros s s' tr Hs Hl H; simpl in H.
  - injection H as <- <-. simpl. split; [exact Hs | lia].
  - destruct (step a s) as [[s1 o] |] eqn:E; [| discriminate].
    destruct (run rest s1) as [[s2 os] |] eqn:R; [| discriminate].
    injection H as <- <-.
    destruct (step_after_stop a s s1 o Hs Hl E) as [Hs1 [Hl1 Hc]].
    destruct (IH s1 s2 os Hs1 Hl1 R) as [Hs2 Hc2].
    split; [exact Hs2 |]. rewrite count_published_app. lia.
Qed.

(** With [_stop] set, six steps of the reader suffice for it to leave its
    loop, wherever it stands and whatever the decode delivers. *)
Lemma reader_leaves_after_stop (c : BufferlessVideoCapture)
    (d1 d2 d3 d4 d5 d6 : option ndarray) :
  _stop c = Some true -> t c <> Crashed ->
  t (reader_steps [d1; d2; d3; d4; d5; d6] c) = Exited.
Proof.
  intros Hs Hc. destruct c as [rel qu pc st nm zs dt row cnt draw].
  simpl in Hs, Hc. subst st.
  destruct pc as [| | f | f | f | | |]; try (now elim Hc); try reflexivity;
    try (destruct qu as [| f0 [| f1 rest]]; reflexivity).
  - destruct d2 as [f |]; [destruct rel |]; try reflexivity;
      destruct qu as [| f0 [| f1 rest]]; reflexivity.
  - destruct d1 as [f |]; [destruct rel |]; try reflexivity;
      destruct qu as [| f0 [| f1 rest]]; reflexivity.
Qed.

(** *** Releases of the source *)

Lemma step_release_inv (a : action) (s s' : system) (o : list obs) :
  release_inv s ->
  step a s = Some (s', o) ->
  release_inv s'
  /\ cap_releases (fst s') = (cap_releases (fst s) + count_released o)%nat.
Proof.
  destruct s as [c life]. unfold release_inv. simpl. intros Hr H.
  unfold step in H. destruct a as [decoded | | | |].
  - destruct (reader_step decoded c) as [[c' o'] |] eqn:E; [| discriminate].
    injection H as <- <-. simpl. unfold reader_step in E.
    assert (cap_releases c' = cap_releases c /\ count_released o' = 0%nat)
      as [-> ->].
    { destruct (t c) as [| | f | f | f | | |];
        repeat match type of E with
          | context [match ?x with _ => _ end] => destruct x eqn:?
          end;
        try discriminate E; injection E as <- <-; split; simpl;
        first [reflexivity | assumption]. }
    split; [exact Hr | lia].
  - destruct life; try discriminate. injection H as <- <-. simpl.
    split; [exact Hr | lia].
  - destruct life; try discriminate. unfold read in H.
    destruct (q c); injection H as <- <-; simpl; (split; [exact Hr | lia]).
  - destruct life; try discriminate. injection H as <- <-. simpl.
    split; [exact Hr | lia].
  - destruct life; try discriminate. injection H as <- <-. simpl.
    rewrite Hr. split; reflexivity.
Qed.

Lemma run_release_inv (acts : list action) :
  forall (s s' : system) (tr : list obs),
    release_inv s ->
    run acts s = Some (s', tr) ->
    release_inv s'
    /\ cap_releases (fst s') = (cap_releases (fst s) + count_released tr)%nat.
Proof.
  induction acts as [| a rest IH]; intros s s' tr Hr H; simpl in H.
  - injection H as <- <-. simpl. split; [exact Hr | lia].
  - destruct (step a s) as [[s1 o] |] eqn:E; [| discriminate].
    destruct (run rest s1) as [[s2 os] |] eqn:R; [| discriminate].
    injection H as <- <-.
    destruct (step_release_inv a s s1 o Hr E) as [Hr1 Hc1].
    destruct (IH s1 s2 os Hr1 R) as [Hr2 Hc2].
    split; [exact Hr2 |]. rewrite count_released_app. lia.
Qed.

(** C3, as the design states it, fails: a stop request that arrives while
    the reader decodes is followed by the publication of the decoded frame,
    and when the reader has left its loop the source has not been
    released. *)
Lemma publish_after_stop_and_no_release :
  exists s : system,
    run stop_mid_decode (start "Camera_1" [] false)
    = Some (s, [StopRequested; Published (frame_640_480 1)])
    /\ t (fst s) = Exited
    /\ cap_releases (fst s) = 0%nat.
Proof. eexists. split; [reflexivity | split; reflexivity]. Qed.

(** C3, amended.  Once [stop_reader()] has returned, [_stop] stays set and
    the reader publishes at most one further frame, the one of the pass of
    its loop that was under way (none if it stood at its test of [_stop] or
    had left the loop).  Neither the reader nor [stop_reader] releases the
    source: the number of releases is that of the runs of [__del__], which is
    1 once the object is finalized and 0 before. *)
Theorem stop_reader_then_at_most_one_publish (camera_name : string)
    (zs : list zone) (draw : bool) (pre post : list action)
    (s1 s2 : system) (tr1 tr2 : list obs) :
  run pre (start camera_name zs draw) = Some (s1, tr1) ->
  run (StopReader :: post) s1 = Some (s2, tr2) ->
  (count_published tr2 <= 1)%nat
  /\ (count_published tr2 <= pending_publishes (t (fst s1)))%nat
  /\ _stop (fst s2) = Some true
  /\ cap_releases (fst s2) = count_released (tr1 ++ tr2)
  /\ match snd s2 with
     | Finalized => cap_releases (fst s2) = 1%nat
     | _ => cap_releases (fst s2) = 0%nat
     end.
Proof.
  intros Hpre Hpost.
  assert (Hr0 : release_inv (start camera_name zs draw)) by reflexivity.
  destruct (run_release_inv pre _ _ _ Hr0 Hpre) as [Hr1 Hc1].
  destruct (run_release_inv _ _ _ _ Hr1 Hpost) as [Hr2 Hc2].
  simpl in Hpost. destruct s1 as [c1 life1]. simpl in Hpost.
  destruct life1; try discriminate.
  destruct (run post (stop_reader c1, Constructed)) as [[s3 os] |] eqn:R;
    [| discriminate].
  injection Hpost as <- <-.
  destruct (run_after_stop post (stop_reader c1, Constructed) s3 os
              eq_refl ltac:(discriminate) R) as [Hs Hc].
  simpl in Hc |- *.
  assert (Hle : (pending_publishes (t c1) <= 1)%nat)
    by (destruct (t c1); simpl; lia).
  split; [lia |]. split; [exact Hc |]. split; [exact Hs |].
  split; [| exact Hr2].
  rewrite count_released_app. simpl in Hc1, Hc2 |- *. lia.
Qed.

(** The stop request in the middle of a decode: one frame is published
    after it, the reader leaves, and the source has not been released. *)
Lemma stop_reader_then_at_most_one_publish_witness :
  (count_published [StopRequested; Published (frame_640_480 1)] <= 1)%nat
  /\ cap_releases
       (mk_camera 0 [frame_640_480 1] Exited (Some true) "Camera_1" []
          initial_detection_dt 0 0 false) = 0%nat.
Proof.
  destruct (stop_reader_then_at_most_one_publish "Camera_1" [] false
              (firstn 2 stop_mid_decode) (skipn 3 stop_mid_decode)
              (mk_camera 0 [] Decoding (Some false) "Camera_1" []
                 initial_detection_dt 0 0 false, Constructed)
              (mk_camera 0 [frame_640_480 1] Exited (Some true) "Camera_1" []
                 initial_detection_dt 0 0 false, Constructed)
              [] [StopRequested; Published (frame_640_480 1)]
              eq_refl eq_refl)
    as [H1 [_ [_ [_ H2]]]].
  split; [exact H1 | exact H2].
Defined.

(* ================================================================= *)
(** * Further properties of the code *)

(* ----------------------------------------------------------------- *)
(** ** The frames a consumer sees *)

Lemma subsequence_refl {A : Type} (l : list A) : subsequence l l.
Proof. induction l; constructor; assumption. Qed.

Lemma subsequence_drop_last {A : Type} (l1 l2 : list A) (x : A) :
  subsequence l1 l2 -> subsequence l1 (l2 ++ [x]).
Proof.
  induction 1; simpl.
  - apply subsequence_skip. constructor.
  - now apply subsequence_skip.
  - now apply subsequence_keep.
Qed.

Lemma subsequence_keep_last {A : Type} (l1 l2 : list A) (x : A) :
  subsequence l1 l2 -> subsequence (l1 ++ [x]) (l2 ++ [x]).
Proof.
  induction 1; simpl.
  - apply subsequence_keep. constructor.
  - now apply subsequence_skip.
  - now apply subsequence_keep.
Qed.

Lemma published_frames_app (tr1 tr2 : list obs) :
  published_frames (tr1 ++ tr2) = published_frames tr1 ++ published_frames tr2.
Proof.
  induction tr1 as [| o rest IH]; simpl; [reflexivity |].
  destruct o; simpl; now rewrite IH.
Qed.

Lemma taken_frames_app (tr1 tr2 : list obs) :
  taken_frames (tr1 ++ tr2) = taken_frames tr1 ++ taken_frames tr2.
Proof.
  induction tr1 as [| o rest IH]; simpl; [reflexivity |].
  destruct o as [f | [f |] | |]; simpl; now rewrite IH.
Qed.

Lemma count_timeouts_app (tr1 tr2 : list obs) :
  count_timeouts (tr1 ++ tr2)
  = (count_timeouts tr1 + count_timeouts tr2)%nat.
Proof.
  induction tr1 as [| o rest IH]; simpl; [reflexivity |].
  destruct o as [f | [f |] | |]; simpl; now rewrite IH.
Qed.

Lemma step_order_inv (a : action) (s s' : system) (o : list obs)
    (P T : list ndarray) :
  order_inv s P T ->
  step a s = Some (s', o) ->
  order_inv s' (P ++ published_frames o) (T ++ taken_frames o).
Proof.
  intros [Hq Hput] H. destruct s as [c life]. unfold order_inv in *.
  simpl in Hq, Hput |- *. unfold step in H.
  destruct a as [decoded | | | |].
  - destruct (reader_step decoded c) as [[c' o'] |] eqn:E; [| discriminate].
    injection H as <- <-. simpl. unfold reader_step in E.
    destruct (t c) as [| | f | f | f | | |] eqn:Et.
    + injection E as <- <-. simpl. rewrite !app_nil_r.
      split; [exact Hq | discriminate].
    + destruct decoded as [f |]; [destruct (cap_releases c) |];
        injection E as <- <-; simpl; rewrite !app_nil_r;
        (split; [exact Hq | discriminate]).
    + destruct (q c) as [| f0 rest] eqn:Eq; injection E as <- <-; simpl;
        rewrite ?Eq, !app_nil_r.
      * split; [exact Hq | reflexivity].
      * split; [exact Hq | discriminate].
    + injection E as <- <-. simpl. rewrite !app_nil_r.
      destruct (q c) as [| f0 [| f1 rest]]; simpl.
      * split; [exact Hq | reflexivity].
      * destruct Hq as [P' [-> Hs]].
        split; [now apply subsequence_drop_last | reflexivity].
      * contradiction.
    + injection E as <- <-. simpl. rewrite (Hput f eq_refl) in Hq |- *.
      simpl. rewrite app_nil_r.
      split; [exists P; auto | discriminate].
    + destruct (_stop c) as [[|] |]; injection E as <- <-; simpl;
        rewrite !app_nil_r; (split; [exact Hq | discriminate]).
    + discriminate E.
    + discriminate E.
  - destruct life; try discriminate. injection H as <- <-. simpl.
    rewrite !app_nil_r. auto.
  - destruct life; try discriminate. unfold read in H.
    destruct (q c) as [| f [| f1 rest]] eqn:Eq; injection H as <- <-; simpl;
      rewrite ?Eq, ?app_nil_r.
    + split; [exact Hq | intros f E; reflexivity].
    + destruct Hq as [P' [-> Hs]].
      split; [now apply subsequence_keep_last | intros f0 E; reflexivity].
    + contradiction.
  - destruct life; try discriminate. injection H as <- <-. simpl.
    rewrite !app_nil_r. auto.
  - destruct life; try discriminate. injection H as <- <-. simpl.
    rewrite !app_nil_r. auto.
Qed.

Lemma run_order_inv (acts : list action) :
  forall (s s' : system) (tr : list obs) (P T : list ndarray),
    order_inv s P T ->
    run acts s = Some (s', tr) ->
    order_inv s' (P ++ published_frames tr) (T ++ taken_frames tr).
Proof.
  induction acts as [| a rest IH]; intros s s' tr P T Hinv H; simpl in H.
  - injection H as <- <-. simpl. now rewrite !app_nil_r.
  - destruct (step a s) as [[s1 o] |] eqn:E; [| discriminate].
    destruct (run rest s1) as [[s2 os] |] eqn:R; [| discriminate].
    injection H as <- <-.
    rewrite published_frames_app, taken_frames_app, !app_assoc.
    eapply IH; [| exact R]. eapply step_order_inv; eassumption.
Qed.

(** X1.  In every run from the construction of a session, the frames
    returned by [read], in the order of the calls, are the published frames
    with some left out: no frame is returned twice, none is returned before
    an earlier one, none is made up. *)
Theorem reads_are_a_subsequence_of_publishes (camera_name : string)
    (zs : list zone) (draw : bool) (acts : list action) (s : system)
    (tr : list obs) :
  run acts (start camera_name zs draw) = Some (s, tr) ->
  subsequence (taken_frames tr) (published_frames tr).
Proof.
  intro Hrun.
  assert (H0 : order_inv (start camera_name zs draw) [] []).
  { split; [constructor | intros f E; reflexivity]. }
  destruct (run_order_inv acts _ _ _ _ _ H0 Hrun) as [Hq _]. simpl in Hq.
  destruct (q (fst s)) as [| f [| f1 rest]].
  - exact Hq.
  - destruct Hq as [P' [-> Hs]]. now apply subsequence_drop_last.
  - contradiction.
Qed.

(** Two frames published, then a [read]: it returns the second. *)
Lemma reads_are_a_subsequence_of_publishes_witness :
  subsequence [frame_640_480 2] [frame_640_480 1; frame_640_480 2].
Proof.
  exact (reads_are_a_subsequence_of_publishes "Camera_1" [] false
           (two_publishes ++ [Read])
           (set_q [] (fst after_two_publishes), Constructed)
           [Published (frame_640_480 1); Published (frame_640_480 2);
            Taken (Some (frame_640_480 2))]
           eq_refl).
Defined.

(* ----------------------------------------------------------------- *)
(** ** What a run changes in a session *)

Lemma reader_step_frame (decoded : option ndarray)
    (c c' : BufferlessVideoCapture) (o : list obs) :
  reader_step decoded c = Some (c', o) ->
  queue_timeouts_counter c' = queue_timeouts_counter c
  /\ detections_in_a_row c' = detections_in_a_row c
  /\ last_detection_dt c' = last_detection_dt c
  /\ _stop c' = _stop c
  /\ cap_releases c' = cap_releases c
  /\ name c' = name c /\ zones c' = zones c
  /\ count_timeouts o = 0%nat /\ taken_frames o = [].
Proof.
  intro H. unfold reader_step in H.
  destruct (t c) as [| | f | f | f | | |];
    repeat match type of H with
      | context [match ?x with _ => _ end] => destruct x eqn:?
      end;
    try discriminate H; injection H as <- <-; simpl;
    repeat split; first [reflexivity | assumption | congruence].
Qed.

Lemma reader_steps_frame (ds : list (option ndarray)) :
  forall c : BufferlessVideoCapture,
    queue_timeouts_counter (reader_steps ds c) = queue_timeouts_counter c
    /\ detections_in_a_row (reader_steps ds c) = detections_in_a_row c
    /\ last_detection_dt (reader_steps ds c) = last_detection_dt c
    /\ name (reader_steps ds c) = name c
    /\ zones (reader_steps ds c) = zones c.
Proof.
  induction ds as [| d rest IH]; intro c; simpl.
  - repeat split.
  - destruct (reader_step d c) as [[c' o] |] eqn:E; [| repeat split].
    destruct (reader_step_frame d c c' o E)
      as [H1 [H2 [H3 [_ [_ [H4 [H5 _]]]]]]].
    destruct (IH c') as [I1 [I2 [I3 [I4 I5]]]].
    repeat split; congruence.
Qed.

Lemma step_session_frame (a : action) (s s' : system) (o : list obs) :
  step a s = Some (s', o) ->
  queue_timeouts_counter (fst s')
  = queue_timeouts_counter (fst s) + Z.of_nat (count_timeouts o)
  /\ detections_in_a_row (fst s') = detections_in_a_row (fst s)
  /\ last_detection_dt (fst s') = last_detection_dt (fst s)
  /\ name (fst s') = name (fst s)
  /\ zones (fst s') = zones (fst s).
Proof.
  destruct s as [c life]. simpl. intro H. unfold step in H.
  destruct a as [decoded | | | |].
  - destruct (reader_step decoded c) as [[c' o'] |] eqn:E; [| discriminate].
    injection H as <- <-. simpl.
    destruct (reader_step_frame decoded c c' o' E)
      as [H1 [H2 [H3 [_ [_ [H4 [H5 [H6 _]]]]]]]].
    rewrite H6. repeat split; try assumption. lia.
  - destruct life; try discriminate. injection H as <- <-. simpl.
    repeat split. lia.
  - destruct life; try discriminate. unfold read in H.
    destruct (q c); injection H as <- <-; simpl; repeat split; lia.
  - destruct life; try discriminate. injection H as <- <-. simpl.
    repeat split. lia.
  - destruct life; try discriminate. injection H as <- <-. simpl.
    repeat split. lia.
Qed.

(** X2.  Whatever the reader thread, [read], [stop_reader] and [__del__]
    do, in any order, [queue_timeouts_counter] grows by exactly the number of
    reads that timed out, and the streak, the time of the last notification,
    the name and the zones of the session stay as they were: the reader
    thread touches none of them. *)
Theorem run_counts_timeouts_only (acts : list action) :
  forall (s s' : system) (tr : list obs),
    run acts s = Some (s', tr) ->
    queue_timeouts_counter (fst s')
    = queue_timeouts_counter (fst s) + Z.of_nat (count_timeouts tr)
    /\ detections_in_a_row (fst s') = detections_in_a_row (fst s)
    /\ last_detection_dt (fst s') = last_detection_dt (fst s)
    /\ name (fst s') = name (fst s)
    /\ zones (fst s') = zones (fst s).
Proof.
  induction acts as [| a rest IH]; intros s s' tr H; simpl in H.
  - injection H as <- <-. simpl. repeat split. lia.
  - destruct (step a s) as [[s1 o] |] eqn:E; [| discriminate].
    destruct (run rest s1) as [[s2 os] |] eqn:R; [| discriminate].
    injection H as <- <-.
    destruct (step_session_frame a s s1 o E) as [H1 [H2 [H3 [H4 H5]]]].
    destruct (IH s1 s2 os R) as [I1 [I2 [I3 [I4 I5]]]].
    rewrite count_timeouts_app, Nat2Z.inj_add.
    repeat split; try congruence. lia.
Qed.

(** Three timeouts, a publication and a successful read: the counter is 3. *)
Lemma run_counts_timeouts_only_witness :
  exists s : system,
    run three_timeouts_then_frame (start "Camera_1" [] false)
    = Some (s, [Taken None; Taken None; Taken None;
                Published (frame_640_480 7);
                Taken (Some (frame_640_480 7))])
    /\ queue_timeouts_counter (fst s) = 0 + 3
    /\ detections_in_a_row (fst s) = 0.
Proof.
  exists after_three_timeouts_then_frame.
  assert (Hrun : run three_timeouts_then_frame (start "Camera_1" [] false)
                 = Some (after_three_timeouts_then_frame,
                         [Taken None; Taken None; Taken None;
                          Published (frame_640_480 7);
                          Taken (Some (frame_640_480 7))]))
    by (vm_compute; reflexivity).
  split; [exact Hrun |].
  destruct (run_counts_timeouts_only three_timeouts_then_frame _ _ _ Hrun)
    as [H1 [H2 _]].
  split; [exact H1 | exact H2].
Defined.

(* ----------------------------------------------------------------- *)
(** ** The start of the reader thread *)

Lemma step_no_crash (a : action) (s s' : system) (o : list obs) :
  _stop (fst s) <> None -> t (fst s) <> Crashed ->
  step a s = Some (s', o) ->
  _stop (fst s') <> None /\ t (fst s') <> Crashed.
Proof.
  destruct s as [c life]. simpl. intros Hs Ht H. unfold step in H.
  destruct a as [decoded | | | |].
  - destruct (reader_step decoded c) as [[c' o'] |] eqn:E; [| discriminate].
    injection H as <- <-. simpl. unfold reader_step in E.
    destruct (t c) as [| | f | f | f | | |];
      repeat match type of E with
        | context [match ?x with _ => _ end] => destruct x eqn:?
        end;
      try discriminate E; injection E as <- <-; simpl;
      split; try assumption; try discriminate; congruence.
  - destruct life; try discriminate. injection H as <- <-. simpl.
    split; [discriminate | assumption].
  - destruct life; try discriminate. unfold read in H.
    destruct (q c); injection H as <- <-; simpl; auto.
  - destruct life; try discriminate. injection H as <- <-. simpl.
    split; [discriminate | assumption].
  - destruct life; try discriminate. injection H as <- <-. simpl. auto.
Qed.

Lemma run_no_crash (acts : list action) :
  forall (s s' : system) (tr : list obs),
    _stop (fst s) <> None -> t (fst s) <> Crashed ->
    run acts s = Some (s', tr) ->
    _stop (fst s') <> None /\ t (fst s') <> Crashed.
Proof.
  induction acts as [| a rest IH]; intros s s' tr Hs Ht H; simpl in H.
  - injection H as <- <-. auto.
  - destruct (step a s) as [[s1 o] |] eqn:E; [| discriminate].
    destruct (run rest s1) as [[s2 os] |] eqn:R; [| discriminate].
    injection H as <- <-.
    destruct (step_no_crash a s s1 o Hs Ht E) as [Hs1 Ht1].
    exact (IH s1 s2 os Hs1 Ht1 R).
Qed.

(** While [__init__] has not assigned it, [_stop] does not exist, and a
    reader that stands at its test of [_stop] has just put a frame. *)
Lemma step_during_init (a : action) (s s' : system) (o : list obs) :
  (snd s = InInit ->
   _stop (fst s) = None /\ (t (fst s) = AtStopCheck -> q (fst s) <> [])) ->
  step a s = Some (s', o) ->
  snd s' = InInit ->
  _stop (fst s') = None /\ (t (fst s') = AtStopCheck -> q (fst s') <> []).
Proof.
  destruct s as [c life]. simpl. intros Hinv H Hl. unfold step in H.
  destruct a as [decoded | | | |].
  - destruct (reader_step decoded c) as [[c' o'] |] eqn:E; [| discriminate].
    injection H as <- <-. simpl in Hl |- *. destruct (Hinv Hl) as [Hs Hq].
    unfold reader_step in E.
    destruct (t c) as [| | f | f | f | | |] eqn:Et;
      repeat match type of E with
        | context [match ?x with _ => _ end] => destruct x eqn:?
        end;
      try discriminate E; injection E as <- <-; simpl;
      try congruence;
      (split; [first [assumption | congruence] |]); try discriminate.
    intros _. destruct (q c); discriminate.
  - destruct life; try discriminate. injection H as <- <-. discriminate Hl.
  - destruct life; try discriminate. unfold read in H.
    destruct (q c); injection H as <- <-; discriminate Hl.
  - destruct life; try discriminate. injection H as <- <-. discriminate Hl.
  - destruct life; try discriminate. injection H as <- <-. discriminate Hl.
Qed.

Lemma run_during_init (acts : list action) :
  forall (s s' : system) (tr : list obs),
    (snd s = InInit ->
     _stop (fst s) = None /\ (t (fst s) = AtStopCheck -> q (fst s) <> [])) ->
    run acts s = Some (s', tr) ->
    snd s' = InInit ->
    _stop (fst s') = None /\ (t (fst s') = AtStopCheck -> q (fst s') <> []).
Proof.
  induction acts as [| a rest IH]; intros s s' tr Hinv H; simpl in H.
  - injection H as <- <-. exact Hinv.
  - destruct (step a s) as [[s1 o] |] eqn:E; [| discriminate].
    destruct (run rest s1) as [[s2 os] |] eqn:R; [| discriminate].
    injection H as <- <-.
    exact (IH s1 s2 os (step_during_init a s s1 o Hinv E) R).
Qed.

(** A reader that has died stays dead and publishes nothing. *)
Lemma run_after_crash (acts : list action) :
  forall (s s' : system) (tr : list obs),
    t (fst s) = Crashed ->
    run acts s = Some (s', tr) ->
    t (fst s') = Crashed /\ count_published tr = 0%nat.
Proof.
  induction acts as [| a rest IH]; intros s s' tr Hc H; simpl in H.
  - injection H as <- <-. auto.
  - destruct (step a s) as [[s1 o] |] eqn:E; [| discriminate].
    destruct (run rest s1) as [[s2 os] |] eqn:R; [| discriminate].
    injection H as <- <-.
    assert (H1 : t (fst s1) = Crashed /\ count_published o = 0%nat).
    { destruct s as [c life]. simpl in Hc. unfold step in E.
      destruct a as [decoded | | | |].
      - unfold reader_step in E. rewrite Hc in E. discriminate.
      - destruct life; try discriminate. injection E as <- <-. auto.
      - destruct life; try discriminate. unfold read in E.
        destruct (q c); injection E as <- <-; auto.
      - destruct life; try discriminate. injection E as <- <-. auto.
      - destruct life; try discriminate. injection E as <- <-. auto. }
    destruct H1 as [Hc1 Ho]. destruct (IH s1 s2 os Hc1 R) as [Hc2 Hos].
    split; [exact Hc2 |]. rewrite count_published_app. lia.
Qed.

(** X3.  [__init__] starts the reader thread before it assigns [_stop].
    When the assignment comes first, the reader never fails on [_stop],
    whatever happens afterwards.  In every run in which the reader reaches
    its test of [_stop] while the constructor has not yet assigned it, the
    frame it has just published is the one in the queue, and its next step
    is its death of the missing attribute: from then on, whatever else
    happens, it stays dead and publishes nothing more. *)
Theorem reader_crashes_only_before_stop_flag (camera_name : string)
    (zs : list zone) (draw : bool) :
  (forall (acts : list action) (s : system) (tr : list obs),
      run (InitStop :: acts) (start camera_name zs draw) = Some (s, tr) ->
      t (fst s) <> Crashed)
  /\ (forall (pre : list action) (s1 : system) (tr1 : list obs),
         run pre (start camera_name zs draw) = Some (s1, tr1) ->
         snd s1 = InInit -> t (fst s1) = AtStopCheck ->
         (exists frame : ndarray,
             q (fst s1) = [frame] /\ last_published tr1 None = Some frame)
         /\ forall (d : option ndarray) (post : list action) (s2 : system)
                   (tr2 : list obs),
             run (ReaderStep d :: post) s1 = Some (s2, tr2) ->
             t (fst s2) = Crashed /\ count_published tr2 = 0%nat).
Proof.
  split.
  - intros acts s tr H. simpl in H.
    destruct (run acts (init_stop_flag (init_started camera_name zs draw),
                        Constructed)) as [[s2 os] |] eqn:R; [| discriminate].
    injection H as <- <-.
    refine (proj2 (run_no_crash acts _ _ _ _ _ R)); simpl; discriminate.
  - intros pre s1 tr1 Hrun Hl Ht.
    assert (H0 : snd (start camera_name zs draw) = InInit ->
                 _stop (fst (start camera_name zs draw)) = None
                 /\ (t (fst (start camera_name zs draw)) = AtStopCheck ->
                     q (fst (start camera_name zs draw)) <> []))
      by (intros _; split; [reflexivity | discriminate]).
    destruct (run_during_init pre _ _ _ H0 Hrun Hl) as [Hs Hq].
    specialize (Hq Ht).
    pose proof (run_channel_inv pre _ _ _ _
                  (channel_inv_start camera_name zs draw) Hrun) as [Hc _].
    split.
    + destruct Hc as [Hc | [f [Hc Hlast]]]; [contradiction |].
      exists f. auto.
    + intros d post s2 tr2 H. clear Hc Hrun H0. destruct s1 as [c1 life1].
      simpl in Hl, Ht, Hs, H.
      unfold reader_step in H. rewrite Ht, Hs in H.
      destruct (run post (set_t Crashed c1, life1)) as [[s3 os] |] eqn:R;
        [| discriminate].
      injection H as <- <-.
      exact (run_after_crash post (set_t Crashed c1, life1) s3 os eq_refl R).
Qed.

(** The reader decodes a frame, finds the queue empty and puts the frame
    before line 32 of [__init__] has run: that frame is in the queue, and the
    reader's next step is its last. *)
Lemma reader_crashes_only_before_stop_flag_witness :
  (exists frame : ndarray,
      q (set_t AtStopCheck
           (set_q [frame_640_480 1] (init_started "Camera_1" [] false)))
      = [frame]
      /\ last_published [Published (frame_640_480 1)] None = Some frame)
  /\ t (set_t Crashed
          (set_t AtStopCheck
             (set_q [frame_640_480 1] (init_started "Camera_1" [] false))))
     = Crashed.
Proof.
  destruct (proj2 (reader_crashes_only_before_stop_flag "Camera_1" [] false)
              (firstn 4 reader_wins_the_start)
              (set_t AtStopCheck
                 (set_q [frame_640_480 1] (init_started "Camera_1" [] false)),
               InInit)
              [Published (frame_640_480 1)] eq_refl eq_refl eq_refl)
    as [Hq Hnext].
  split; [exact Hq |].
  exact (proj1 (Hnext None [] _ [] eq_refl)).
Defined.

(* ----------------------------------------------------------------- *)
(** ** Passes of the loop with the reader running in between *)

Lemma camera_cycle_counter (cfg : config) (fw fh : Z) (inp : cycle_input)
    (c : BufferlessVideoCapture) :
  (queue_timeouts_counter (fst (camera_cycle cfg fw fh inp c))
   = queue_timeouts_counter c
   /\ failure_reports (snd (camera_cycle cfg fw fh inp c)) = 0%nat)
  \/ (queue_timeouts_counter (fst (camera_cycle cfg fw fh inp c))
      = queue_timeouts_counter c + 1
      /\ failure_reports (snd (camera_cycle cfg fw fh inp c))
         = if (queue_timeouts_counter c + 1 =? timeout_count_before_message cfg)
              && (2 <=? runtime_verbose_level cfg)
           then 1%nat else 0%nat).
Proof.
  destruct (q c) as [| f rest] eqn:E.
  - right. rewrite (camera_cycle_timeout cfg fw fh inp c E). simpl.
    split; [reflexivity | apply failure_reports_check].
  - left. unfold camera_cycle, read. rewrite E.
    destruct (scan_results cfg (zones (set_q rest c)) fw fh (results inp)).
    + destruct (send_frame_condition _ _ cfg); simpl.
      * split; [reflexivity |].
        unfold save_detection_frame, send_cv2_frame, show_frame.
        destruct (save_frames inp), (1 <=? runtime_verbose_level cfg),
                 (encoded inp), (show_camera_window inp); reflexivity.
      * split; [reflexivity |]. unfold show_frame.
        destruct (show_camera_window inp); reflexivity.
    + simpl. split; [reflexivity |]. unfold show_frame.
      destruct (show_camera_window inp); reflexivity.
Qed.

Lemma camera_cycles_with_reader_reports (cfg : config) (fw fh : Z)
    (sched : list (list (option ndarray) * cycle_input)) :
  forall c : BufferlessVideoCapture,
    queue_timeouts_counter c
    <= queue_timeouts_counter
         (fst (camera_cycles_with_reader cfg fw fh sched c))
    /\ (failure_reports (snd (camera_cycles_with_reader cfg fw fh sched c))
        <= if (queue_timeouts_counter c <? timeout_count_before_message cfg)%Z
           then 1 else 0)%nat.
Proof.
  induction sched as [| [ds inp] rest IH]; intro c; simpl.
  - split; [lia |].
    destruct (queue_timeouts_counter c <? timeout_count_before_message cfg);
      unfold failure_reports; simpl; lia.
  - destruct (reader_steps_frame ds c) as [Hk _].
    pose proof (camera_cycle_counter cfg fw fh inp (reader_steps ds c)) as Hc.
    destruct (camera_cycle cfg fw fh inp (reader_steps ds c)) as [c1 e1].
    simpl in Hc. rewrite Hk in Hc.
    destruct (IH c1) as [Hm Hr].
    destruct (camera_cycles_with_reader cfg fw fh rest c1) as [c2 e2].
    simpl in *. rewrite failure_reports_app.
    destruct Hc as [[Hc1 Hf] | [Hc1 Hf]]; rewrite Hf, Hc1 in *.
    + split; [lia | exact Hr].
    + split; [lia |].
      destruct (queue_timeouts_counter c + 1 =? timeout_count_before_message cfg)
        eqn:A,
        (queue_timeouts_counter c + 1 <? timeout_count_before_message cfg)
        eqn:B,
        (queue_timeouts_counter c <? timeout_count_before_message cfg) eqn:D,
        (2 <=? runtime_verbose_level cfg);
        simpl in *; try lia; exfalso;
        rewrite ?Z.eqb_eq, ?Z.eqb_neq, ?Z.ltb_lt, ?Z.ltb_ge in *; lia.
Qed.

(** X5.  Over the whole life of a session, however timeouts and frames
    alternate and whatever the reader does between the passes of the loop,
    at most one failure report is sent; none is sent once the counter has
    reached the threshold, so a camera that recovers and fails again is not
    reported a second time. *)
Theorem at_most_one_failure_report_ever (cfg : config)
    (frame_width frame_height : Z)
    (sched : list (list (option ndarray) * cycle_input))
    (c : BufferlessVideoCapture) :
  (failure_reports
     (snd (camera_cycles_with_reader cfg frame_width frame_height sched c))
   <= 1)%nat
  /\ (timeout_count_before_message cfg <= queue_timeouts_counter c ->
      failure_reports
        (snd (camera_cycles_with_reader cfg frame_width frame_height sched c))
      = 0%nat).
Proof.
  destruct (camera_cycles_with_reader_reports cfg frame_width frame_height
              sched c) as [_ H].
  split.
  - destruct (_ <? _) in H; lia.
  - intro Hge.
    replace (queue_timeouts_counter c <? timeout_count_before_message cfg)
      with false in H by (symmetry; apply Z.ltb_ge; lia).
    lia.
Qed.

(** Threshold 5, counter already at 5: a frame, then two timeouts, send no
    report. *)
Lemma at_most_one_failure_report_ever_witness :
  failure_reports
    (snd (camera_cycles_with_reader (sample_config 3) 640 480
            [([], pass_with []); ([], pass_with []); ([], pass_with [])]
            (session [frame_640_480 1] 0 5))) = 0%nat.
Proof.
  apply (proj2 (at_most_one_failure_report_ever (sample_config 3) 640 480
                  [([], pass_with []); ([], pass_with []); ([], pass_with [])]
                  (session [frame_640_480 1] 0 5))).
  vm_compute. discriminate.
Defined.

Lemma camera_cycle_streak (cfg : config) (fw fh : Z) (inp : cycle_input)
    (c : BufferlessVideoCapture) :
  detections_in_a_row (fst (camera_cycle cfg fw fh inp c))
  = detections_in_a_row c
  \/ detections_in_a_row (fst (camera_cycle cfg fw fh inp c)) = 0
  \/ detections_in_a_row (fst (camera_cycle cfg fw fh inp c))
     = detections_in_a_row c + 1.
Proof.
  unfold camera_cycle, read. destruct (q c) as [| f rest]; simpl.
  - now left.
  - destruct (scan_results cfg _ fw fh (results inp)).
    + right. right. destruct (send_frame_condition _ _ cfg); reflexivity.
    + right. now left.
Qed.

(** X6.  Starting from a streak that is not negative, the streak is never
    negative and never exceeds the starting value plus the number of passes
    of the loop, whatever the reader does in between. *)
Theorem streak_bounds (cfg : config) (frame_width frame_height : Z)
    (sched : list (list (option ndarray) * cycle_input)) :
  forall c : BufferlessVideoCapture,
    0 <= detections_in_a_row c ->
    0 <= detections_in_a_row
           (fst (camera_cycles_with_reader cfg frame_width frame_height
                   sched c))
      <= detections_in_a_row c + Z.of_nat (List.length sched).
Proof.
  induction sched as [| [ds inp] rest IH]; intros c H0.
  - simpl. lia.
  - cbn [camera_cycles_with_reader].
    destruct (reader_steps_frame ds c) as [_ [Hs _]].
    pose proof (camera_cycle_streak cfg frame_width frame_height inp
                  (reader_steps ds c)) as Hc.
    destruct (camera_cycle cfg frame_width frame_height inp
                (reader_steps ds c)) as [c1 e1].
    simpl in Hc. rewrite Hs in Hc.
    assert (H1 : 0 <= detections_in_a_row c1) by lia.
    specialize (IH c1 H1).
    destruct (camera_cycles_with_reader cfg frame_width frame_height rest c1)
      as [c2 e2].
    simpl in *. lia.
Qed.

(** From a streak of 2, a pass with a person and a pass with nothing. *)
Lemma streak_bounds_witness :
  0 <= detections_in_a_row
         (fst (camera_cycles_with_reader (sample_config 3) 640 480
                 [([], pass_with [mk_box 0 (9 # 10) (10, 10, 50, 50)%Q]);
                  ([], pass_with [])]
                 (session [frame_640_480 1; frame_640_480 2] 2 0)))
    <= 2 + 2.
Proof.
  apply (streak_bounds (sample_config 3) 640 480
           [([], pass_with [mk_box 0 (9 # 10) (10, 10, 50, 50)%Q]);
            ([], pass_with [])]
           (session [frame_640_480 1; frame_640_480 2] 2 0)).
  vm_compute. discriminate.
Defined.

(* ----------------------------------------------------------------- *)
(** ** What one pass of the loop sends *)

(** X7.  A pass of the loop sends at most one photo, and never a photo
    together with a failure report: a pass on an empty queue sends no photo
    and leaves the time of the last notification alone, a pass on a frame
    sends no failure report.  A photo is sent only when the streak, this
    frame included, has reached [min_detections_in_a_row], more than
    [bot_frame_timeout] seconds have passed since the last notification, the
    verbosity is at least 1 and the frame could be encoded; the time of the
    last notification changes only in a pass that meets the first two
    conditions, and then to the current time. *)
Theorem photo_needs_streak_and_interval (cfg : config)
    (frame_width frame_height : Z) (inp : cycle_input)
    (c : BufferlessVideoCapture) :
  (photos (snd (camera_cycle cfg frame_width frame_height inp c)) <= 1)%nat
  /\ (q c = [] ->
      photos (snd (camera_cycle cfg frame_width frame_height inp c)) = 0%nat
      /\ last_detection_dt (fst (camera_cycle cfg frame_width frame_height
                                   inp c))
         = last_detection_dt c)
  /\ (q c <> [] ->
      failure_reports (snd (camera_cycle cfg frame_width frame_height inp c))
      = 0%nat)
  /\ (photos (snd (camera_cycle cfg frame_width frame_height inp c)) = 1%nat ->
      1 <= runtime_verbose_level cfg /\ encoded inp = true
      /\ last_detection_dt (fst (camera_cycle cfg frame_width frame_height
                                   inp c))
         = now_committed inp)
  /\ (last_detection_dt (fst (camera_cycle cfg frame_width frame_height inp c))
      <> last_detection_dt c
      \/ photos (snd (camera_cycle cfg frame_width frame_height inp c))
         = 1%nat ->
      min_detections_in_a_row cfg <= detections_in_a_row c + 1
      /\ timedelta_seconds (bot_frame_timeout cfg)
         < now_measured inp - last_detection_dt c
      /\ last_detection_dt (fst (camera_cycle cfg frame_width frame_height
                                   inp c))
         = now_committed inp).
Proof.
  unfold camera_cycle, read.
  destruct (q c) as [| f rest] eqn:E.
  - cbn [fst snd]. unfold check_and_report_camera_failure.
    destruct ((_ =? _) && (_ <=? _)); simpl; unfold photos; simpl;
      repeat split; intros;
      repeat match goal with H : _ \/ _ |- _ => destruct H end;
      try reflexivity; try lia; congruence.
  - destruct (scan_results cfg (zones (set_q rest c)) frame_width frame_height
                (results inp)).
    + rewrite send_frame_condition_bool. simpl.
      destruct (timedelta_seconds (bot_frame_timeout cfg)
                <? now_measured inp - last_detection_dt c) eqn:A,
               (min_detections_in_a_row cfg <=? detections_in_a_row c + 1)
               eqn:B; simpl;
        unfold save_detection_frame, send_cv2_frame, show_frame, photos,
          failure_reports;
        destruct (save_frames inp), (1 <=? runtime_verbose_level cfg) eqn:V,
                 (encoded inp), (show_camera_window inp); simpl;
        rewrite ?Z.ltb_lt, ?Z.leb_le, ?Z.ltb_ge, ?Z.leb_gt in *;
        repeat split; intros;
        repeat match goal with H : _ \/ _ |- _ => destruct H end;
        try reflexivity; try lia; congruence.
    + simpl. unfold show_frame, photos, failure_reports.
      destruct (show_camera_window inp); simpl;
        repeat split; intros;
        repeat match goal with H : _ \/ _ |- _ => destruct H end;
        try reflexivity; try lia; congruence.
Qed.

(** A third detection in a row, long after the last notification: the
    photo goes out and the time of the last notification is the current
    one. *)
Lemma photo_needs_streak_and_interval_witness :
  1 <= runtime_verbose_level (sample_config 3)
  /\ encoded (mk_cycle_input [[mk_box 0 (9 # 10) (10, 10, 50, 50)%Q]]
                (timedelta_seconds 100000) (timedelta_seconds 100001)
                true false false) = true
  /\ last_detection_dt
       (fst (camera_cycle (sample_config 3) 640 480
               (mk_cycle_input [[mk_box 0 (9 # 10) (10, 10, 50, 50)%Q]]
                  (timedelta_seconds 100000) (timedelta_seconds 100001)
                  true false false)
               (session [frame_640_480 1] 2 0)))
     = timedelta_seconds 100001.
Proof.
  apply (proj1 (proj2 (proj2 (proj2
           (photo_needs_streak_and_interval (sample_config 3) 640 480
              (mk_cycle_input [[mk_box 0 (9 # 10) (10, 10, 50, 50)%Q]]
                 (timedelta_seconds 100000) (timedelta_seconds 100001)
                 true false false)
              (session [frame_640_480 1] 2 0)))))).
  reflexivity.
Defined.

Create HintDb subseq.
#[local] Hint Constructors subsequence : subseq.

(** X8.  The verbosity changes what is sent and nothing else: for any two
    values of [runtime_verbose_level] a pass of the loop leaves the session
    in the same state, so the time of the last notification is renewed also
    when the photo is not sent; and with the higher value the pass produces
    the effects of the lower one, in the same order, possibly with more. *)
Theorem verbosity_only_changes_messages (cfg : config)
    (frame_width frame_height : Z) (inp : cycle_input)
    (c : BufferlessVideoCapture) (v v' : Z) :
  fst (camera_cycle (with_verbose_level v cfg) frame_width frame_height inp c)
  = fst (camera_cycle (with_verbose_level v' cfg) frame_width frame_height
           inp c)
  /\ (v <= v' ->
      subsequence
        (snd (camera_cycle (with_verbose_level v cfg) frame_width frame_height
                inp c))
        (snd (camera_cycle (with_verbose_level v' cfg) frame_width
                frame_height inp c))).
Proof.
  unfold camera_cycle, read.
  destruct (q c) as [| f rest] eqn:E.
  - cbn [fst snd]. split; [reflexivity |]. intro Hv.
    unfold check_and_report_camera_failure. cbn.
    destruct (queue_timeouts_counter c + 1
              =? timeout_count_before_message cfg);
      destruct (2 <=? v) eqn:A, (2 <=? v') eqn:B; simpl;
      auto with subseq.
    apply Z.leb_le in A. apply Z.leb_gt in B. lia.
  - unfold scan_results, scan_boxes, box_selected, send_frame_condition,
      save_detection_frame, send_cv2_frame, show_frame. cbn.
    match goal with
    | |- context [if ?b then _ else _] => destruct b
    end.
    + match goal with
      | |- context [if ?b then _ else _] => destruct b
      end; cbn.
      * split; [reflexivity |]. intro Hv.
        destruct (save_frames inp), (encoded inp), (show_camera_window inp),
                 (1 <=? v) eqn:A, (1 <=? v') eqn:B; simpl;
          auto 6 with subseq;
          apply Z.leb_le in A; apply Z.leb_gt in B; lia.
      * split; [reflexivity |]. intros _. apply subsequence_refl.
    + cbn. split; [reflexivity |]. intros _. apply subsequence_refl.
Qed.

(** A detection that qualifies, once with verbosity 0 and once with 3: the
    session ends the same, and only the second pass sends the photo. *)
Lemma verbosity_only_changes_messages_witness :
  subsequence
    (snd (camera_cycle (with_verbose_level 0 (sample_config 3)) 640 480
            (mk_cycle_input [[mk_box 0 (9 # 10) (10, 10, 50, 50)%Q]]
               (timedelta_seconds 100000) (timedelta_seconds 100001)
               true false false)
            (session [frame_640_480 1] 2 0)))
    (snd (camera_cycle (with_verbose_level 3 (sample_config 3)) 640 480
            (mk_cycle_input [[mk_box 0 (9 # 10) (10, 10, 50, 50)%Q]]
               (timedelta_seconds 100000) (timedelta_seconds 100001)
               true false false)
            (session [frame_640_480 1] 2 0))).
Proof.
  apply (proj2 (verbosity_only_changes_messages (sample_config 3) 640 480
                  (mk_cycle_input [[mk_box 0 (9 # 10) (10, 10, 50, 50)%Q]]
                     (timedelta_seconds 100000) (timedelta_seconds 100001)
                     true false false)
                  (session [frame_640_480 1] 2 0) 0 3)).
  discriminate.
Defined.

(* ----------------------------------------------------------------- *)
(** ** The geometry of anchors and zones *)

Lemma py_max_sym (a b : Q) : (py_max a b == py_max b a)%Q.
Proof.
  unfold py_max.
  destruct (Qltb a b) eqn:A, (Qltb b a) eqn:B; try reflexivity.
  - apply Qltb_lt in A. apply Qltb_lt in B. exfalso.
    exact (Qlt_irrefl _ (Qlt_trans _ _ _ A B)).
  - apply Qltb_ge in A. apply Qltb_ge in B. now apply Qle_antisym.
Qed.

(** X9.  The anchor of a box does not depend on which of two opposite
    corners is given first, it lies between the two vertical sides of the
    box, and its height is the lower of the two horizontal sides (the
    larger [y]); the plain midpoint lies between the sides in both
    directions. *)
Theorem anchor_within_box (x1 y1 x2 y2 : Q) :
  same_point (midpoint_bottom x1 y1 x2 y2) (midpoint_bottom x2 y2 x1 y1)
  /\ (Qmin x1 x2 <= fst (midpoint_bottom x1 y1 x2 y2) <= Qmax x1 x2)%Q
  /\ (y1 <= snd (midpoint_bottom x1 y1 x2 y2))%Q
  /\ (y2 <= snd (midpoint_bottom x1 y1 x2 y2))%Q
  /\ (snd (midpoint_bottom x1 y1 x2 y2) == Qmax y1 y2)%Q
  /\ (Qmin x1 x2 <= fst (midpoint x1 y1 x2 y2) <= Qmax x1 x2)%Q
  /\ (Qmin y1 y2 <= snd (midpoint x1 y1 x2 y2) <= Qmax y1 y2)%Q.
Proof.
  assert (Hmid : forall a b : Q,
             (Qmin a b <= (a + b) / 2 <= Qmax a b)%Q).
  { intros a b.
    assert (Hh : ((a + b) / 2 == (a + b) * (1 # 2))%Q) by reflexivity.
    rewrite Hh.
    destruct (Qlt_le_dec a b) as [Hlt | Hle].
    - rewrite (Q.min_l a b), (Q.max_r a b) by (apply Qlt_le_weak; exact Hlt).
      split; lra.
    - rewrite (Q.min_r a b), (Q.max_l a b) by exact Hle. split; lra. }
  unfold midpoint_bottom, midpoint, same_point. simpl.
  rewrite py_max_Qmax.
  split; [split; [now rewrite (Qplus_comm x1 x2)
                 | rewrite <- py_max_Qmax; apply py_max_sym] |].
  split; [apply Hmid |].
  split; [apply Q.le_max_l |].
  split; [apply Q.le_max_r |].
  split; [reflexivity |].
  split; apply Hmid.
Qed.

Lemma is_point_in_rectangle_inverted (p : Q * Q) (lft top rgt bot : Q) :
  (rgt <= lft)%Q \/ (bot <= top)%Q ->
  is_point_in_rectangle p (lft, top, rgt, bot) = false.
Proof.
  intro H. destruct p as [x y].
  destruct (is_point_in_rectangle (x, y) (lft, top, rgt, bot)) eqn:E;
    [| reflexivity].
  apply is_point_in_rectangle_spec in E. simpl in E.
  destruct E as [[H1 H2] [H3 H4]]. exfalso. destruct H as [H | H]; lra.
Qed.

(** X10.  A zone whose right edge is not right of its left edge, or whose
    lower edge is not below its upper edge, suppresses nothing at any frame
    size that is not negative: the list of zones acts as if it were not
    there.  In particular an empty list of zones suppresses nothing. *)
Theorem inverted_zone_is_inert (x1 y1 x2 y2 : Q) (zs : list zone)
    (frame_width frame_height : Z) (coords : Z * Z * Z * Z) :
  0 <= frame_width -> 0 <= frame_height ->
  (x2 <= x1)%Q \/ (y2 <= y1)%Q ->
  object_not_in_zones ((x1, y1, x2, y2) :: zs) frame_width frame_height coords
  = object_not_in_zones zs frame_width frame_height coords
  /\ object_not_in_zones [(x1, y1, x2, y2)] frame_width frame_height coords
     = true
  /\ object_not_in_zones [] frame_width frame_height coords = true.
Proof.
  intros Hw Hh Hinv.
  assert (E : is_point_in_rectangle (anchor coords)
                (rectangle_coordinates (x1, y1, x2, y2) frame_width
                   frame_height) = false).
  { unfold rectangle_coordinates. apply is_point_in_rectangle_inverted.
    assert (Hw' : (0 <= inject_Z frame_width)%Q)
      by (change 0%Q with (inject_Z 0); rewrite <- Zle_Qle; exact Hw).
    assert (Hh' : (0 <= inject_Z frame_height)%Q)
      by (change 0%Q with (inject_Z 0); rewrite <- Zle_Qle; exact Hh).
    destruct Hinv as [H | H]; [left | right];
      apply Qmult_le_compat_r; assumption. }
  cbn [object_not_in_zones]. rewrite E. repeat split.
Qed.

(** The zone [(0.9, 0.1, 0.1, 0.9)], its sides exchanged, lets through a
    box in the middle of the frame. *)
Lemma inverted_zone_is_inert_witness :
  object_not_in_zones [((9 # 10), (1 # 10), (1 # 10), (9 # 10))%Q] 100 100
    (40, 20, 60, 50) = true.
Proof.
  assert (Hw : 0 <= 100) by lia.
  assert (Hx : ((1 # 10) <= (9 # 10))%Q) by (unfold Qle; simpl; lia).
  destruct (inverted_zone_is_inert (9 # 10) (1 # 10) (1 # 10) (9 # 10) []
              100 100 (40, 20, 60, 50) Hw Hw (or_introl Hx))
    as [_ [H _]].
  exact H.
Defined.

Lemma object_not_in_zones_app (zs1 zs2 : list zone) (fw fh : Z)
    (coords : Z * Z * Z * Z) :
  object_not_in_zones (zs1 ++ zs2) fw fh coords
  = object_not_in_zones zs1 fw fh coords
    && object_not_in_zones zs2 fw fh coords.
Proof.
  induction zs1 as [| z rest IH]; simpl; [reflexivity |].
  destruct (is_point_in_rectangle (anchor coords)
              (rectangle_coordinates z fw fh)); [reflexivity | exact IH].
Qed.

(** X11.  Whether a detection is suppressed does not depend on the order in
    which the zones are listed, although the loop stops at the first zone
    that contains the anchor; and a detection passes two lists of zones put
    together exactly when it passes each of them, so adding zones never lets
    more through. *)
Theorem zone_order_is_irrelevant (zs1 zs2 : list zone)
    (frame_width frame_height : Z) (coords : Z * Z * Z * Z) :
  object_not_in_zones (zs1 ++ zs2) frame_width frame_height coords
  = object_not_in_zones zs1 frame_width frame_height coords
    && object_not_in_zones zs2 frame_width frame_height coords
  /\ (Permutation zs1 zs2 ->
      object_not_in_zones zs1 frame_width frame_height coords
      = object_not_in_zones zs2 frame_width frame_height coords).
Proof.
  split; [apply object_not_in_zones_app |].
  induction 1 as [| z l l' _ IH | z z' l | l l' l'' _ IH1 _ IH2]; simpl.
  - reflexivity.
  - now rewrite IH.
  - destruct (is_point_in_rectangle (anchor coords)
                (rectangle_coordinates z frame_width frame_height)),
             (is_point_in_rectangle (anchor coords)
                (rectangle_coordinates z' frame_width frame_height));
      reflexivity.
  - congruence.
Qed.

(** Two zones in either order: the box in the second one is suppressed
    both times. *)
Lemma zone_order_is_irrelevant_witness :
  object_not_in_zones [((6 # 10), (6 # 10), 1, 1)%Q; zone_01_09] 100 100
    (40, 20, 60, 50)
  = object_not_in_zones [zone_01_09; ((6 # 10), (6 # 10), 1, 1)%Q] 100 100
      (40, 20, 60, 50).
Proof.
  apply (proj2 (zone_order_is_irrelevant
                  [((6 # 10), (6 # 10), 1, 1)%Q; zone_01_09]
                  [zone_01_09; ((6 # 10), (6 # 10), 1, 1)%Q]
                  100 100 (40, 20, 60, 50))).
  apply perm_swap.
Defined.

(* ----------------------------------------------------------------- *)
(** ** [zoom_in_frame] *)

(** X12.  With four margins that are not negative and leave something of
    the frame (top and bottom together at most the height, left and right
    together at most the width), the zoomed frame has the height less the
    top and bottom margins and the width less the left and right ones. *)
Theorem zoom_in_frame_cuts_the_margins (rows cols lft rgt top bot : Z) :
  0 <= lft -> 0 <= rgt -> 0 <= top -> 0 <= bot ->
  top + bot <= rows -> lft + rgt <= cols ->
  zoom_in_frame (rows, cols) (LitList [lft; rgt; top; bot])
  = (rows - top - bot, cols - lft - rgt).
Proof.
  intros Hl Hr Ht Hb Hv Hh. unfold zoom_in_frame, slice_length, slice_bound.
  cbn [fst snd].
  replace (top + (rows - (top + bot)) <? 0) with false
    by (symmetry; apply Z.ltb_ge; lia).
  replace (lft + (cols - (lft + rgt)) <? 0) with false
    by (symmetry; apply Z.ltb_ge; lia).
  replace (top <? 0) with false by (symmetry; apply Z.ltb_ge; lia).
  replace (lft <? 0) with false by (symmetry; apply Z.ltb_ge; lia).
  f_equal; lia.
Qed.

(** A frame of 480 by 640 with margins 40 and 60 left and right, 10 and 30
    above and below. *)
Lemma zoom_in_frame_cuts_the_margins_witness :
  zoom_in_frame (480, 640) (LitList [40; 60; 10; 30]) = (440, 540).
Proof.
  apply (zoom_in_frame_cuts_the_margins 480 640 40 60 10 30); lia.
Defined.

Lemma slice_length_bounds (n start stop : Z) :
  0 <= n -> 0 <= slice_length n start stop <= n.
Proof.
  intro Hn. unfold slice_length, slice_bound.
  destruct (stop <? 0) eqn:A, (start <? 0) eqn:B;
    rewrite ?Z.ltb_lt, ?Z.ltb_ge in *; lia.
Qed.

(** X13.  [zoom_in_frame] never fails on integer margins and never
    enlarges: whatever the parameters, each side of the result is between 0
    and the side of the frame.  A value that is not a list, or a list that
    has not exactly four entries, leaves the frame as it is. *)
Theorem zoom_in_frame_never_enlarges (rows cols : Z) (lit : literal) :
  (0 <= rows -> 0 <= cols ->
   0 <= fst (zoom_in_frame (rows, cols) lit) <= rows
   /\ 0 <= snd (zoom_in_frame (rows, cols) lit) <= cols)
  /\ ((forall items, lit = LitList items -> List.length items <> 4%nat) ->
      zoom_in_frame (rows, cols) lit = (rows, cols)).
Proof.
  split.
  - intros Hr Hc. unfold zoom_in_frame.
    destruct lit as [items | b |]; cbn [fst snd]; try lia.
    destruct items as [| a [| b [| c [| d [| e rest]]]]]; cbn [fst snd];
      try lia.
    split; apply slice_length_bounds; assumption.
  - intro H. unfold zoom_in_frame.
    destruct lit as [items | b |]; try reflexivity.
    destruct items as [| a [| b [| c [| d [| e rest]]]]]; try reflexivity.
    exfalso. apply (H _ eq_refl). reflexivity.
Qed.

(** Three margins instead of four: the frame is returned whole. *)
Lemma zoom_in_frame_never_enlarges_witness :
  zoom_in_frame (480, 640) (LitList [40; 60; 10]) = (480, 640).
Proof.
  apply (proj2 (zoom_in_frame_never_enlarges 480 640 (LitList [40; 60; 10]))).
  intros items H. injection H as <-. discriminate.
Defined.

(** X14.  A bottom margin larger than the frame does not give an empty
    frame: the end of the slice, [rows - bot], is negative and counts from
    the end of the frame, so that with a top margin below [2 * rows - bot]
    the result keeps [2 * rows - bot - top] rows. *)
Theorem zoom_in_frame_wraps_around (rows cols lft rgt top bot : Z) :
  0 <= top -> rows < bot -> top < 2 * rows - bot ->
  fst (zoom_in_frame (rows, cols) (LitList [lft; rgt; top; bot]))
  = 2 * rows - bot - top
  /\ 0 < fst (zoom_in_frame (rows, cols) (LitList [lft; rgt; top; bot])).
Proof.
  intros Ht Hb Hw. unfold zoom_in_frame, slice_length, slice_bound.
  cbn [fst snd].
  replace (top + (rows - (top + bot)) <? 0) with true
    by (symmetry; apply Z.ltb_lt; lia).
  replace (top <? 0) with false by (symmetry; apply Z.ltb_ge; lia).
  lia.
Qed.

(** A frame of 100 rows, 10 cut above and 120 below: rows 10 to 80 stay. *)
Lemma zoom_in_frame_wraps_around_witness :
  fst (zoom_in_frame (100, 100) (LitList [0; 0; 10; 120])) = 70.
Proof.
  apply (proj1 (zoom_in_frame_wraps_around 100 100 0 0 10 120
                  ltac:(lia) ltac:(lia) ltac:(lia))).
Defined.

(* ----------------------------------------------------------------- *)
(** ** Frame size, set-up and clean-up *)

(** For a frame of 1080 rows and a model size of 640 the truncated double
    is the truncated exact quotient at every width from 1 to 4096. *)
Lemma frame_heights_in_binary64 :
  all_below (Z.to_nat 4096)
    (fun k => Binary64.frame_height 1080 640 (k + 1)
              =? Z.quot (1080 * 640) (k + 1)) = true.
Proof. vm_compute. reflexivity. Qed.

(** X15.  On a pending frame of positive width, with [rows * imgsz] below
    [2^53], [calculate_frame_size] takes the frame out of the queue and
    returns the width [imgsz] with the height that keeps the proportions of
    the frame, rounded down:
    [height / imgsz <= rows / columns < (height + 1) / imgsz].  Below [2^53]
    the double [rows * imgsz / columns] has the whole part of the exact
    quotient; above it the double can reach the next integer. *)
Theorem calculate_frame_size_keeps_proportions (c : BufferlessVideoCapture)
    (cfg : config) (frame : ndarray) (rest : list ndarray) :
  q c = frame :: rest ->
  0 < shape1 frame -> 0 <= shape0 frame -> 0 <= imgsz cfg ->
  shape0 frame * imgsz cfg < 2 ^ 53 ->
  exists height : Z,
    calculate_frame_size c cfg = (set_q rest c, inr (imgsz cfg, height))
    /\ 0 <= height
    /\ height * shape1 frame <= shape0 frame * imgsz cfg
       < (height + 1) * shape1 frame.
Proof.
  intros E Hw Hh Hi _.
  exists (shape0 frame * imgsz cfg / shape1 frame).
  unfold calculate_frame_size, read. rewrite E.
  replace (shape1 frame =? 0) with false by (symmetry; apply Z.eqb_neq; lia).
  rewrite Z.quot_div_nonneg by nia.
  split; [reflexivity |].
  pose proof (Z.div_mod (shape0 frame * imgsz cfg) (shape1 frame)
                ltac:(lia)) as Hdm.
  pose proof (Z.mod_pos_bound (shape0 frame * imgsz cfg) (shape1 frame) Hw)
    as Hmb.
  split; [apply Z.div_pos; nia | nia].
Qed.

(** A frame of 1080 by 1920 for a model size of 640: 640 by 360. *)
Lemma calculate_frame_size_keeps_proportions_witness :
  exists height : Z,
    calculate_frame_size (session [mk_ndarray 1080 1920 0] 0 0)
      (sample_config 3)
    = (set_q [] (session [mk_ndarray 1080 1920 0] 0 0), inr (640, height))
    /\ 0 <= height
    /\ height * 1920 <= 1080 * 640 < (height + 1) * 1920.
Proof.
  apply (calculate_frame_size_keeps_proportions
           (session [mk_ndarray 1080 1920 0] 0 0) (sample_config 3)
           (mk_ndarray 1080 1920 0) []); simpl; try reflexivity; lia.
Defined.

(** X16.  [cleanup_cameras] sets the stop flag of every camera and does
    nothing else: the cameras stay as many, none is released and no queue
    changes.  Each reader that has not died then leaves its loop within six
    of its own steps, whatever its source delivers. *)
Theorem cleanup_cameras_stops_every_reader
    (cameras_list : list BufferlessVideoCapture) :
  List.length (cleanup_cameras cameras_list) = List.length cameras_list
  /\ map cap_releases (cleanup_cameras cameras_list)
     = map cap_releases cameras_list
  /\ map q (cleanup_cameras cameras_list) = map q cameras_list
  /\ (forall c : BufferlessVideoCapture,
         In c (cleanup_cameras cameras_list) ->
         _stop c = Some true
         /\ (t c <> Crashed ->
             forall d1 d2 d3 d4 d5 d6 : option ndarray,
               t (reader_steps [d1; d2; d3; d4; d5; d6] c) = Exited)).
Proof.
  unfold cleanup_cameras.
  split; [apply length_map |].
  split; [rewrite map_map; reflexivity |].
  split; [rewrite map_map; reflexivity |].
  intros c Hin. apply in_map_iff in Hin. destruct Hin as [c0 [<- _]].
  split; [reflexivity |].
  intros Hc d1 d2 d3 d4 d5 d6.
  now apply reader_leaves_after_stop.
Qed.

(** Two sessions, one of them waiting for a decode. *)
Lemma cleanup_cameras_stops_every_reader_witness :
  t (reader_steps [None; None; None; None; None; None]
       (stop_reader (set_t Decoding (session [] 0 0)))) = Exited.
Proof.
  destruct (cleanup_cameras_stops_every_reader
              [session [frame_640_480 1] 0 0;
               set_t Decoding (session [] 0 0)])
    as [_ [_ [_ H]]].
  destruct (H (stop_reader (set_t Decoding (session [] 0 0)))
              (or_intror (or_introl eq_refl))) as [_ H'].
  apply H'. discriminate.
Defined.

Lemma reader_steps_session (ds : list (option ndarray)) :
  forall c : BufferlessVideoCapture,
    _stop (reader_steps ds c) = _stop c
    /\ cap_releases (reader_steps ds c) = cap_releases c
    /\ draw_frames (reader_steps ds c) = draw_frames c.
Proof.
  induction ds as [| d rest IH]; intro c; simpl.
  - repeat split.
  - destruct (reader_step d c) as [[c' o] |] eqn:E; [| repeat split].
    destruct (IH c') as [I1 [I2 I3]].
    rewrite I1, I2, I3. clear IH I1 I2 I3.
    unfold reader_step in E.
    destruct (t c) as [| | f | f | f | | |];
      repeat match type of E with
        | context [match ?x with _ => _ end] => destruct x eqn:?
        end;
      try discriminate E; injection E as <- <-; simpl;
      repeat split; first [reflexivity | assumption | congruence].
Qed.

Lemma reader_steps_channel_inv (ds : list (option ndarray)) :
  forall (c : BufferlessVideoCapture) (life : lifecycle)
         (last : option ndarray),
    channel_inv (c, life) last ->
    exists last', channel_inv (reader_steps ds c, life) last'.
Proof.
  induction ds as [| d rest IH]; intros c life last H; simpl.
  - now exists last.
  - destruct (reader_step d c) as [[c' o] |] eqn:E; [| now exists last].
    exact (IH c' life _ (reader_step_channel_inv d c c' o life last H E)).
Qed.

Lemma new_camera_session (camera_name : string) (zs : list zone)
    (draw : bool) (moves : reader_moves) :
  name (new_camera camera_name zs draw moves) = camera_name
  /\ zones (new_camera camera_name zs draw moves) = zs
  /\ draw_frames (new_camera camera_name zs draw moves) = draw
  /\ _stop (new_camera camera_name zs draw moves) = Some false
  /\ queue_timeouts_counter (new_camera camera_name zs draw moves) = 0
  /\ detections_in_a_row (new_camera camera_name zs draw moves) = 0
  /\ cap_releases (new_camera camera_name zs draw moves) = 0%nat
  /\ (List.length (q (new_camera camera_name zs draw moves)) <= 1)%nat.
Proof.
  unfold new_camera.
  set (c0 := init_started camera_name zs draw).
  set (c1 := reader_steps (before_stop_flag moves) c0).
  set (c2 := init_stop_flag c1).
  destruct (reader_steps_frame (before_stop_flag moves) c0)
    as [A1 [A2 [_ [A4 A5]]]].
  destruct (reader_steps_session (before_stop_flag moves) c0)
    as [_ [A7 A8]].
  destruct (reader_steps_frame (after_stop_flag moves) c2)
    as [B1 [B2 [_ [B4 B5]]]].
  destruct (reader_steps_session (after_stop_flag moves) c2)
    as [B6 [B7 B8]].
  fold c1 in A1, A2, A4, A5, A7, A8.
  rewrite B1, B2, B4, B5, B6, B7, B8. unfold c2, init_stop_flag. simpl.
  rewrite A1, A2, A4, A5, A7, A8. unfold c0. simpl.
  repeat split.
  destruct (reader_steps_channel_inv (before_stop_flag moves) c0 InInit None
              (channel_inv_start camera_name zs draw)) as [l1 [Hq1 Hp1]].
  fold c1 in Hq1, Hp1.
  assert (H2 : channel_inv (set_stop (Some false) c1, Constructed) l1)
    by (split; simpl; assumption).
  destruct (reader_steps_channel_inv (after_stop_flag moves) _ _ _ H2)
    as [l2 [Hq2 _]].
  simpl in Hq2. destruct Hq2 as [-> | [f [-> _]]]; simpl; lia.
Qed.

Lemma setup_cameras_loop_inr (sections : list config_section)
    (readers : string -> reader_moves) :
  forall acc cams : list BufferlessVideoCapture,
    setup_cameras_loop sections readers acc = inr cams ->
    exists fresh : list BufferlessVideoCapture,
      cams = acc ++ fresh
      /\ map name fresh = map section_name sections
      /\ map zones fresh = map section_zones sections
      /\ map (fun c => Evaluates (LitBool (draw_frames c))) fresh
         = map section_show_camera_window sections
      /\ Forall (fun c => _stop c = Some false
                          /\ queue_timeouts_counter c = 0
                          /\ detections_in_a_row c = 0
                          /\ cap_releases c = 0%nat
                          /\ (List.length (q c) <= 1)%nat) fresh.
Proof.
  induction sections as [| sec rest IH]; intros acc cams H; simpl in H.
  - injection H as <-. exists []. rewrite app_nil_r. repeat split.
    constructor.
  - destruct (section_show_camera_window sec) as [[items | b |] | e] eqn:E;
      try discriminate.
    destruct (IH _ _ H) as [fresh [-> [Hn [Hz [Hd Hf]]]]].
    destruct (new_camera_session (section_name sec) (section_zones sec) b
                (readers (section_name sec)))
      as [N1 [N2 [N3 [N4 [N5 [N6 [N7 N8]]]]]]].
    exists (new_camera (section_name sec) (section_zones sec) b
              (readers (section_name sec)) :: fresh).
    rewrite <- app_assoc. cbn [map app]. rewrite Hn, Hz, Hd, E, N1, N2, N3.
    repeat split. constructor; [repeat split; assumption | exact Hf].
Qed.

Lemma setup_cameras_loop_inl (sections : list config_section)
    (readers : string -> reader_moves) (e : setup_error) :
  forall acc : list BufferlessVideoCapture,
    setup_cameras_loop sections readers acc = inl e <->
    exists pre sec post,
      sections = pre ++ sec :: post
      /\ Forall (fun s => exists b,
                   section_show_camera_window s = Evaluates (LitBool b)) pre
      /\ first_failure (section_show_camera_window sec) = Some e.
Proof.
  induction sections as [| sec rest IH]; intro acc; simpl.
  - split; [discriminate |].
    intros [pre [s0 [post [H _]]]]. destruct pre; discriminate.
  - destruct (section_show_camera_window sec) as [[items | b |] | x] eqn:E.
    + split.
      * intro H. injection H as <-. exists [], sec, rest.
        rewrite E. repeat split. constructor.
      * intros [pre [s0 [post [H [Hpre Hs0]]]]].
        destruct pre as [| p pre'].
        -- injection H as <- <-. rewrite E in Hs0. simpl in Hs0. congruence.
        -- injection H as <- ->. inversion Hpre as [| ? ? [b0 Hb] _].
           congruence.
    + rewrite IH. split.
      * intros [pre [s0 [post [-> [Hpre Hs0]]]]].
        exists (sec :: pre), s0, post. repeat split; [| exact Hs0].
        constructor; [now exists b | exact Hpre].
      * intros [pre [s0 [post [H [Hpre Hs0]]]]].
        destruct pre as [| p pre'].
        -- injection H as <- <-. rewrite E in Hs0. discriminate.
        -- injection H as <- ->. exists pre', s0, post.
           repeat split; [now inversion Hpre | exact Hs0].
    + split.
      * intro H. injection H as <-. exists [], sec, rest.
        rewrite E. repeat split. constructor.
      * intros [pre [s0 [post [H [Hpre Hs0]]]]].
        destruct pre as [| p pre'].
        -- injection H as <- <-. rewrite E in Hs0. simpl in Hs0. congruence.
        -- injection H as <- ->. inversion Hpre as [| ? ? [b0 Hb] _].
           congruence.
    + split.
      * intro H. injection H as <-. exists [], sec, rest.
        rewrite E. repeat split. constructor.
      * intros [pre [s0 [post [H [Hpre Hs0]]]]].
        destruct pre as [| p pre'].
        -- injection H as <- <-. rewrite E in Hs0. simpl in Hs0. congruence.
        -- injection H as <- ->. inversion Hpre as [| ? ? [b0 Hb] _].
           congruence.
Qed.

(** X17.  [setup_cameras] makes one session for each section whose name
    starts with [Camera_], in the order of the file, and ignores the other
    sections.  Whatever the reader threads of the new sessions have done by
    the time it returns, the sessions carry the names, the zones and the
    [show_camera_window] of their sections, their stop flag is [False], they
    have no timeouts and no streak, their source is not released and at most
    one frame is queued.  It raises, with no list at all, exactly when
    [show_camera_window] of one of those sections does not evaluate to a
    boolean, and the first such section decides what: the [ValueError] of
    line 78 when [eval] returned something else, the exception of [eval]
    itself when it raised one. *)
Theorem setup_cameras_one_session_per_camera_section
    (sections : list config_section) (readers : string -> reader_moves) :
  (forall e : setup_error,
      setup_cameras sections readers = inl e <->
      exists pre sec post,
        filter (fun sec => is_camera_section (section_name sec)) sections
        = pre ++ sec :: post
        /\ Forall (fun s => exists b,
                     section_show_camera_window s = Evaluates (LitBool b))
             pre
        /\ ((e = ValueError
             /\ exists value,
                  section_show_camera_window sec = Evaluates value
                  /\ forall b, value <> LitBool b)
            \/ exists exception,
                 section_show_camera_window sec = EvalRaises exception
                 /\ e = EvalException exception))
  /\ (forall cams : list BufferlessVideoCapture,
         setup_cameras sections readers = inr cams ->
         map name cams
         = filter is_camera_section (map section_name sections)
         /\ map zones cams
            = map section_zones
                (filter (fun sec => is_camera_section (section_name sec))
                   sections)
         /\ map (fun c => Evaluates (LitBool (draw_frames c))) cams
            = map section_show_camera_window
                (filter (fun sec => is_camera_section (section_name sec))
                   sections)
         /\ Forall (fun c => is_camera_section (name c) = true
                             /\ _stop c = Some false
                             /\ queue_timeouts_counter c = 0
                             /\ detections_in_a_row c = 0
                             /\ cap_releases c = 0%nat
                             /\ (List.length (q c) <= 1)%nat) cams).
Proof.
  unfold setup_cameras. split.
  - intro e. rewrite setup_cameras_loop_inl. split.
    + intros [pre [sec [post [H [Hpre Hs]]]]]. exists pre, sec, post.
      repeat split; try assumption.
      destruct (section_show_camera_window sec) as [[items | b |] | x];
        simpl in Hs; try discriminate; injection Hs as <-.
      * left. split; [reflexivity |]. eexists. split; [reflexivity |].
        discriminate.
      * left. split; [reflexivity |]. eexists. split; [reflexivity |].
        discriminate.
      * right. now exists x.
    + intros [pre [sec [post [H [Hpre Hs]]]]]. exists pre, sec, post.
      repeat split; try assumption.
      destruct Hs as [[-> [value [-> Hv]]] | [x [-> ->]]]; [| reflexivity].
      destruct value as [items | b |]; try reflexivity.
      exfalso. now apply (Hv b).
  - intros cams H.
    destruct (setup_cameras_loop_inr _ _ _ _ H)
      as [fresh [-> [Hn [Hz [Hd Hf]]]]].
    simpl.
    assert (Hnames : map section_name
                       (filter (fun sec => is_camera_section (section_name sec))
                          sections)
                     = filter is_camera_section (map section_name sections)).
    { clear. induction sections as [| sec rest IH]; simpl; [reflexivity |].
      destruct (is_camera_section (section_name sec)); simpl; now rewrite IH. }
    split; [now rewrite Hn |]. split; [exact Hz |]. split; [exact Hd |].
    apply Forall_forall. intros c Hin.
    rewrite Forall_forall in Hf.
    destruct (Hf c Hin) as [H1 [H2 [H3 [H4 H5]]]].
    repeat split; try assumption.
    assert (Hc : In (name c) (map name fresh)) by now apply in_map.
    rewrite Hn, Hnames in Hc. apply filter_In in Hc. tauto.
Qed.

(** The sections Parameters and Camera_1, the reader of Camera_1 having
    reached its test of [_stop] before line 32: one session, named
    Camera_1, its thread dead and one frame queued.  With
    [show_camera_window = yes] the [NameError] of [eval] comes out. *)
Lemma setup_cameras_one_session_per_camera_section_witness :
  setup_cameras
    [mk_section "Parameters" [] (Evaluates LitOther);
     mk_section "Camera_1" [] (EvalRaises "NameError")]
    (fun _ => mk_moves [] [])
  = inl (EvalException "NameError")
  /\ map name
       [new_camera "Camera_1" [] false
          (mk_moves [None; Some (frame_640_480 1); None; None; None] [None])]
     = filter is_camera_section
         (map section_name
            [mk_section "Parameters" [] (Evaluates LitOther);
             mk_section "Camera_1" [] (Evaluates (LitBool false))])
  /\ t (new_camera "Camera_1" [] false
          (mk_moves [None; Some (frame_640_480 1); None; None; None] [None]))
     = Crashed.
Proof.
  split; [reflexivity |]. split; [| reflexivity].
  destruct (setup_cameras_one_session_per_camera_section
              [mk_section "Parameters" [] (Evaluates LitOther);
               mk_section "Camera_1" [] (Evaluates (LitBool false))]
              (fun _ => mk_moves
                          [None; Some (frame_640_480 1); None; None; None]
                          [None])) as [_ H].
  exact (proj1 (H _ eq_refl)).
Defined.

(* ----------------------------------------------------------------- *)
(** ** [calculate_time_to_end] *)

Import Miscellaneous.

Lemma Qfloor_frac_div (a : Z) (p k : positive) :
  Qfloor ((a # p) / (Zpos k # 1)) = a / Zpos (p * k).
Proof.
  unfold Qfloor, Qdiv, Qmult, Qinv. simpl. now rewrite Z.mul_1_r.
Qed.

Lemma Qfloor_div_of_Qeq (x : Q) (a : Z) (p k : positive) :
  (x == a # p)%Q -> Qfloor (x / (Zpos k # 1)) = a / Zpos (p * k).
Proof.
  intro H. rewrite <- Qfloor_frac_div. apply Qfloor_comp. now rewrite H.
Qed.

Lemma py_int_inject_Z (z : Z) : py_int (inject_Z z) = z.
Proof. unfold py_int. simpl. apply Z.quot_1_r. Qed.

Lemma py_int_of_Qeq_nonneg (x : Q) (a : Z) (p : positive) :
  (x == a # p)%Q -> 0 <= a -> py_int x = a / Zpos p.
Proof.
  intros H Ha. destruct x as [n d]. unfold py_int.
  assert (Hn : 0 <= Qnum (n # d)).
  { unfold Qeq in H. simpl in H.
    destruct (Z.neg_nonneg_cases n) as [Hneg | Hpos]; [| exact Hpos].
    exfalso. assert (n * Zpos p < 0) by nia. nia. }
  rewrite Z.quot_div_nonneg by lia.
  change (Qnum (n # d) / Zpos (Qden (n # d))) with (Qfloor (n # d)).
  now rewrite (Qfloor_comp _ _ H).
Qed.

Lemma py_mod_frac (a : Z) (p k : positive) :
  (py_mod (a # p) (Zpos k # 1)
   == (a - a / Zpos (p * k) * Zpos (p * k)) # p)%Q.
Proof.
  unfold py_mod, py_floordiv. rewrite Qfloor_frac_div.
  unfold Qeq, Qminus, Qplus, Qopp, Qmult, inject_Z. simpl.
  rewrite !Pos2Z.inj_mul. ring.
Qed.

Lemma time_to_end_fields_integers (dt1 dt2 : Z) :
  time_to_end_fields dt1 dt2
  = ((dt2 - dt1) / 3600000000,
     ((dt2 - dt1) mod 3600000000) / 60000000,
     ((dt2 - dt1) mod 60000000) / 1000000).
Proof.
  unfold time_to_end_fields, total_seconds.
  set (td := dt2 - dt1).
  assert (Hh : py_int (py_floordiv (td # 1000000) 3600) = td / 3600000000).
  { unfold py_floordiv. rewrite py_int_inject_Z.
    exact (Qfloor_frac_div td 1000000 3600). }
  assert (Hm : py_int (py_floordiv (py_mod (td # 1000000) 3600) 60)
               = (td mod 3600000000) / 60000000).
  { unfold py_floordiv at 1. rewrite py_int_inject_Z.
    rewrite (Qfloor_div_of_Qeq _ _ 1000000 60
               (py_mod_frac td 1000000 3600)).
    change (Zpos (1000000 * 3600)) with 3600000000.
    change (Zpos (1000000 * 60)) with 60000000.
    f_equal. rewrite Z.mod_eq by lia. ring. }
  assert (Hs : py_int (py_mod (td # 1000000) 60)
               = (td mod 60000000) / 1000000).
  { rewrite (py_int_of_Qeq_nonneg _ _ 1000000 (py_mod_frac td 1000000 60)).
    - change (Zpos (1000000 * 60)) with 60000000.
      f_equal. rewrite Z.mod_eq by lia. ring.
    - change (Zpos (1000000 * 60)) with 60000000.
      pose proof (Z.mod_pos_bound td 60000000 ltac:(lia)) as Hb.
      rewrite Z.mod_eq in Hb by lia. lia. }
  now rewrite Hh, Hm, Hs.
Qed.

(** X18.  For two times less than [2^53] microseconds apart (some 285
    years), where the double of [total_seconds()] has the whole seconds of
    the difference, the three numbers that [calculate_time_to_end] formats
    make up those whole seconds, rounded down:
    [hours * 3600 + minutes * 60 + seconds] is that number, with minutes and
    seconds from 0 to 59 also when the end lies in the past, where the hours
    are negative. *)
Theorem time_to_end_fields_add_up (dt1 dt2 : Z) :
  - 2 ^ 53 < dt2 - dt1 < 2 ^ 53 ->
  let '(hours, minutes, seconds) := time_to_end_fields dt1 dt2 in
  hours * 3600 + minutes * 60 + seconds = (dt2 - dt1) / 1000000
  /\ 0 <= minutes < 60
  /\ 0 <= seconds < 60
  /\ (hours < 0 <-> dt2 < dt1).
Proof.
  intros _. rewrite time_to_end_fields_integers.
  Z.to_euclidean_division_equations. lia.
Qed.

(** An end that lies one microsecond in the past: [-1:59:59]. *)
Lemma time_to_end_fields_add_up_witness :
  time_to_end_fields 1 0 = (-1, 59, 59)
  /\ -1 * 3600 + 59 * 60 + 59 = (0 - 1) / 1000000.
Proof.
  split; [vm_compute; reflexivity |].
  exact (proj1 (time_to_end_fields_add_up 1 0 ltac:(vm_compute; split; reflexivity))).
Defined.

Lemma format_02d_two_characters (n : Z) :
  0 <= n < 100 ->
  exists a b, format_02d n = String a (String b EmptyString).
Proof.
  intro Hn.
  assert (Hall : forallb
                   (fun k => match format_02d (Z.of_nat k) with
                             | String _ (String _ EmptyString) => true
                             | _ => false
                             end)
                   (seq 0 100) = true) by (vm_compute; reflexivity).
  rewrite forallb_forall in Hall.
  specialize (Hall (Z.to_nat n)).
  rewrite Z2Nat.id in Hall by lia.
  assert (Hin : In (Z.to_nat n) (seq 0 100)) by (apply in_seq; lia).
  specialize (Hall Hin).
  destruct (format_02d n) as [| a [| b [| c rest]]]; try discriminate.
  now exists a, b.
Qed.

(** X19.  For an end that lies ahead by less than 100 hours the text of
    [calculate_time_to_end] has exactly eight characters, with colons in the
    third and the sixth place. *)
Theorem calculate_time_to_end_is_hh_mm_ss (dt1 dt2 : Z) :
  0 <= dt2 - dt1 < timedelta_hours_minutes 100 0 ->
  String.length (calculate_time_to_end dt1 dt2) = 8%nat
  /\ String.get 2 (calculate_time_to_end dt1 dt2) = Some ":"%char
  /\ String.get 5 (calculate_time_to_end dt1 dt2) = Some ":"%char.
Proof.
  intro H. unfold timedelta_hours_minutes, timedelta_seconds in H.
  unfold calculate_time_to_end.
  rewrite time_to_end_fields_integers. cbv beta iota.
  assert (Hm : 0 <= (dt2 - dt1) mod 3600000000 / 60000000 < 60)
    by (Z.to_euclidean_division_equations; lia).
  assert (Hs : 0 <= (dt2 - dt1) mod 60000000 / 1000000 < 60)
    by (Z.to_euclidean_division_equations; lia).
  assert (Hh : 0 <= (dt2 - dt1) / 3600000000 < 100).
  { split; [apply Z.div_pos; lia |].
    apply Z.div_lt_upper_bound; lia. }
  destruct (format_02d_two_characters _ Hh) as [h1 [h0 ->]].
  assert (Hm' : 0 <= (dt2 - dt1) mod 3600000000 / 60000000 < 100) by lia.
  assert (Hs' : 0 <= (dt2 - dt1) mod 60000000 / 1000000 < 100) by lia.
  destruct (format_02d_two_characters _ Hm') as [m1 [m0 ->]].
  destruct (format_02d_two_characters _ Hs') as [s1 [s0 ->]].
  repeat split.
Qed.

(** From one o'clock to half past two and seven seconds. *)
Lemma calculate_time_to_end_is_hh_mm_ss_witness :
  String.length
    (calculate_time_to_end (timedelta_seconds 3600) (timedelta_seconds 9007))
  = 8%nat.
Proof.
  apply (proj1 (calculate_time_to_end_is_hh_mm_ss (timedelta_seconds 3600)
                  (timedelta_seconds 9007) ltac:(vm_compute; split; congruence))).
Defined.

(* ----------------------------------------------------------------- *)
(** ** [LoopDelayer] and [AliveLogger] *)

Lemma delay_none (now after : Q) (d : LoopDelayer) :
  snd (delay now after d) = None <->
  (minimal_loop_time d <= now - previous_delay_time d)%Q.
Proof.
  unfold delay.
  destruct (Qltb 0 (minimal_loop_time d - (now - previous_delay_time d)))
    eqn:E; simpl.
  - apply Qltb_lt in E. split; [discriminate | intro H; exfalso; lra].
  - apply Qltb_ge in E. split; [intros _; lra | reflexivity].
Qed.

Lemma delay_none_state (now after : Q) (d : LoopDelayer) :
  snd (delay now after d) = None -> fst (delay now after d) = d.
Proof.
  unfold delay.
  destruct (Qltb 0 (minimal_loop_time d - (now - previous_delay_time d)));
    simpl; [discriminate | reflexivity].
Qed.

(** X20.  [delay] renews [previous_delay_time] only when it sleeps.  So
    once a pass of the loop has taken at least [minimal_loop_time], so that
    [delay] does not sleep, no later call sleeps either, however short the
    later passes are: the delayer stays as it is and the loop is no longer
    slowed down. *)
Theorem delay_never_sleeps_again (now after : Q) (d : LoopDelayer)
    (calls : list (Q * Q)) :
  snd (delay now after d) = None ->
  Forall (fun call => (now <= fst call)%Q) calls ->
  delays ((now, after) :: calls) d
  = (d, repeat None (S (List.length calls))).
Proof.
  intros Hnone Hlater.
  assert (Hrest : delays calls d = (d, repeat None (List.length calls))).
  { apply delay_none in Hnone.
    induction Hlater as [| [now' after'] rest Hle _ IH]; simpl;
      [reflexivity |].
    simpl in Hle.
    assert (Hn' : snd (delay now' after' d) = None)
      by (apply delay_none; lra).
    pose proof (delay_none_state now' after' d Hn') as Hs'.
    destruct (delay now' after' d) as [d1 slept]. simpl in Hn', Hs'.
    subst d1 slept. now rewrite IH. }
  cbn [delays].
  pose proof (delay_none_state now after d Hnone) as Hs.
  destruct (delay now after d) as [d1 slept]. simpl in Hnone, Hs.
  subst d1 slept. now rewrite Hrest.
Qed.

(** A minimum of 2 s: a pass of 3 s, then passes of half a second. *)
Lemma delay_never_sleeps_again_witness :
  delays [(3, 3); ((7 # 2), (7 # 2)); (4, 4)]%Q (mk_delayer 2 0)
  = (mk_delayer 2 0, [None; None; None]).
Proof.
  apply (delay_never_sleeps_again 3 3 (mk_delayer 2 0)
           [((7 # 2), (7 # 2)); (4, 4)]%Q).
  - reflexivity.
  - repeat constructor; simpl; unfold Qle; simpl; lia.
Defined.

(** X22.  The lines of [AliveLogger] are more than [time_interval] minutes
    apart: over any sequence of calls in which the clock does not go back
    between the test and the storing of the time, each stored time exceeds
    the one before it, and the first one the initial [last_log_time], by
    more than the interval. *)
Theorem alive_log_lines_are_spaced (calls : list (Z * Z)) (a : AliveLogger) :
  Forall (fun call => fst call <= snd call) calls ->
  spaced (timedelta_minutes (time_interval a)) (last_log_time a)
    (log_times calls a).
Proof.
  revert a.
  induction calls as [| [now now_logged] rest IH]; intros a Hc; simpl.
  - exact I.
  - inversion Hc as [| ? ? Hle Hrest]; subst. simpl in Hle.
    unfold log_alive_status.
    destruct (timedelta_minutes (time_interval a) <? now - last_log_time a)
      eqn:E.
    + apply Z.ltb_lt in E. simpl. split; [lia |].
      exact (IH (mk_alive_logger now_logged (time_interval a)) Hrest).
    + exact (IH a Hrest).
Qed.

(** An interval of 10 minutes and calls every 4 minutes from minute 4 on:
    lines at minutes 12 and 24. *)
Lemma alive_log_lines_are_spaced_witness :
  spaced (timedelta_minutes 10) 0
    [timedelta_minutes 12; timedelta_minutes 24].
Proof.
  exact (alive_log_lines_are_spaced
           (map (fun m => (timedelta_minutes m, timedelta_minutes m))
              [4; 8; 12; 16; 20; 24])
           (mk_alive_logger 0 10)
           ltac:(repeat constructor; simpl; lia)).
Defined.
